(** * pipsqueak3: command registration and message dispatch

    A shallow embedding of [src/packages/commands/rat_command.py]:
    the [Command] descriptor and its validators, the global registry
    [_registered_commands] with [_register], the fact grammar and
    [handle_fact], and the dispatcher [trigger].

    Python strings are modelled as byte strings ([string]).  The grammar
    only looks at ASCII classes, so only [str.casefold] depends on the
    encoding; it is a parameter of the development. *)

From Stdlib Require Import Ascii String ZArith Bool Lia.
From stdpp Require Import base option list gmap strings.

Set Warnings "-register-all".

Local Open Scope string_scope.
Local Open Scope list_scope.

Module rat_command.

(** ** Exceptions *)

(** The exception classes that the module raises, catches or lets
    through.  [OtherException] stands for any class the module does not
    name (raised by a handler, the transport or the store). *)
Inductive exn : Type :=
  | IndexError
  | TypeError
  | NotCallableError
  | ValueError
  | Psycopg2Error (tag : nat)
  | NameCollisionException (alias : string)
  | InvalidCommandException
  | OtherException (tag : nat).

Inductive outcome (A : Type) : Type :=
  | Return (a : A)
  | Raise (e : exn).
Arguments Return {A} a.
Arguments Raise {A} e.

(** [except psycopg2.Error] catches the class and its subclasses. *)
Definition is_psycopg2_error (e : exn) : bool :=
  match e with Psycopg2Error _ => true | _ => false end.

(** ** Python values *)

(** [Command] as the attrs class declares it; the two fields without a
    type-restricting validator hold any value. *)
Record Command_ (V Perm : Type) : Type := mkCommand {
  underlying : V;
  aliases : list string;
  require_permission : option Perm;
  require_channel : bool;
  require_direct_message : bool;
  func : V
}.
Arguments mkCommand {V Perm}.
Arguments underlying {V Perm}.
Arguments aliases {V Perm}.
Arguments require_permission {V Perm}.
Arguments require_channel {V Perm}.
Arguments require_direct_message {V Perm}.
Arguments func {V Perm}.

Section Values.
(** [handler] names a plain callable (a coroutine function);
    [Permission] is the class of [src.packages.permissions]. *)
Context {handler Permission : Type}.

Inductive pyval : Type :=
  | PNone
  | PBool (b : bool)
  | PInt (z : Z)
  | PStr (s : string)
  | PTuple (l : list pyval)
  | PList (l : list pyval)
  | PFunc (h : handler)
  | PPerm (p : Permission)
  | PCmd (c : Command_ pyval Permission).

Definition Command : Type := Command_ pyval Permission.

(** [bool(v)]: neither functions nor attrs instances define
    [__bool__] or [__len__]. *)
Definition truthy (v : pyval) : bool :=
  match v with
  | PNone => false
  | PBool b => b
  | PInt z => negb (z =? 0)%Z
  | PStr s => negb (String.eqb s "")
  | PTuple l | PList l => match l with [] => false | _ => true end
  | PFunc _ | PPerm _ | PCmd _ => true
  end.

(** [callable(v)]: functions, and [Command] instances through
    [Command.__call__]. *)
Definition callable (v : pyval) : bool :=
  match v with
  | PFunc _ | PCmd _ => true
  | _ => false
  end.

(** *** Validators of the [Command] attributes *)

Definition validator : Type := pyval → option exn.

Definition is_callable : validator :=
  fun v => if callable v then None else Some NotCallableError.

Definition instance_of_str : validator :=
  fun v => match v with PStr _ => None | _ => Some TypeError end.
Definition instance_of_tuple : validator :=
  fun v => match v with PTuple _ => None | _ => Some TypeError end.
Definition instance_of_bool : validator :=
  fun v => match v with PBool _ => None | _ => Some TypeError end.
Definition instance_of_Permission : validator :=
  fun v => match v with PPerm _ => None | _ => Some TypeError end.

Definition optional (val : validator) : validator :=
  fun v => match v with PNone => None | _ => val v end.

Definition and_ (v1 v2 : validator) : validator :=
  fun v => match v1 v with Some e => Some e | None => v2 v end.

(** [for member in value: member_validator(member)] *)
Fixpoint validate_members (member_validator : validator) (l : list pyval)
  : option exn :=
  match l with
  | [] => None
  | m :: l' =>
      match member_validator m with
      | Some e => Some e
      | None => validate_members member_validator l'
      end
  end.

(** [deep_iterable]: the iterable validator first, then every member.
    Iterating a value that is not iterable raises [TypeError]. *)
Definition deep_iterable (member_validator iterable_validator : validator)
  : validator :=
  fun v =>
    match iterable_validator v with
    | Some e => Some e
    | None =>
        match v with
        | PTuple l | PList l => validate_members member_validator l
        | PStr s =>
            validate_members member_validator
              ((fun c => PStr (String c EmptyString))
                 <$> list_ascii_of_string s)
        | _ => Some TypeError
        end
    end.

(** [truthy_validator(inst, attribute, value)]: [if not value: raise
    ValueError(value)]. *)
Definition truthy_validator : validator :=
  fun v => if truthy v then None else Some ValueError.

Definition aliases_validator : validator :=
  and_ (deep_iterable instance_of_str instance_of_tuple) truthy_validator.

Definition strs_of (l : list pyval) : list string :=
  omap (fun v => match v with PStr s => Some s | _ => None end) l.

(** [Command(underlying=..., aliases=..., ...)]: the generated
    [__init__] stores the attributes and runs the validators in the
    order of declaration; the first failure is raised. *)
Definition Command_init
    (underlying_ aliases_ require_permission_ require_channel_
       require_direct_message_ func_ : pyval) : exn + Command :=
  match is_callable underlying_ with
  | Some e => inl e
  | None =>
  match aliases_validator aliases_ with
  | Some e => inl e
  | None =>
  match optional instance_of_Permission require_permission_ with
  | Some e => inl e
  | None =>
  match instance_of_bool require_channel_ with
  | Some e => inl e
  | None =>
  match instance_of_bool require_direct_message_ with
  | Some e => inl e
  | None =>
      inr {| underlying := underlying_;
             aliases := match aliases_ with
                        | PTuple l => strs_of l
                        | _ => []
                        end;
             require_permission :=
               match require_permission_ with
               | PPerm p => Some p
               | _ => None
               end;
             require_channel :=
               match require_channel_ with PBool b => b | _ => false end;
             require_direct_message :=
               match require_direct_message_ with
               | PBool b => b
               | _ => false
               end;
             func := func_ |}
  end end end end end.

End Values.
Arguments pyval : clear implicits.
Arguments Command : clear implicits.

(** ** The fact grammar

    The pyparsing elements that [handle_fact] builds its pattern from.
    A parser takes the rest of the line and gives the token and what is
    left, or [None] for [ParseException].  Every element first skips the
    default whitespace characters. *)

Definition parser (A : Type) : Type := string → option (A * string).

(** [" \n\t\r"] *)
Definition DEFAULT_WHITE_CHARS : string :=
  String " " (String "010" (String "009" (String "013" EmptyString))).

Definition alphas : string :=
  "ABCDEFGHIJKLMNOPQRSTUVWXYZabcdefghijklmnopqrstuvwxyz".
Definition nums : string := "0123456789".
Definition alphanums : string := alphas +:+ nums.

(** [c in cs] *)
Fixpoint in_chars (c : ascii) (cs : string) : bool :=
  match cs with
  | EmptyString => false
  | String d cs' => Ascii.eqb c d || in_chars c cs'
  end.

Fixpoint skip_whitespace (s : string) : string :=
  match s with
  | EmptyString => EmptyString
  | String c s' =>
      if in_chars c DEFAULT_WHITE_CHARS then skip_whitespace s' else s
  end.

(** The longest run of characters of [cs] at the head of [s]. *)
Fixpoint span (cs : string) (s : string) : string * string :=
  match s with
  | EmptyString => (EmptyString, EmptyString)
  | String c s' =>
      if in_chars c cs
      then let '(tok, rest) := span cs s' in (String c tok, rest)
      else (EmptyString, s)
  end.

(** [Word(cs)]: one or more characters of [cs]. *)
Definition Word (cs : string) : parser string :=
  fun s =>
    match span cs (skip_whitespace s) with
    | (EmptyString, _) => None
    | (tok, rest) => Some (tok, rest)
    end.

Fixpoint strip_prefix (lit s : string) : option string :=
  match lit, s with
  | EmptyString, _ => Some s
  | String a lit', String b s' =>
      if Ascii.eqb a b then strip_prefix lit' s' else None
  | String _ _, EmptyString => None
  end.

Definition Literal (lit : string) : parser string :=
  fun s =>
    match strip_prefix lit (skip_whitespace s) with
    | Some rest => Some (lit, rest)
    | None => None
    end.

(** [Suppress(e)]: matches as [e] does and drops the token. *)
Definition Suppress {A} (p : parser A) : parser unit :=
  fun s =>
    match p s with
    | Some (_, rest) => Some (tt, rest)
    | None => None
    end.

(** [e1 + e2] *)
Definition And {A B} (p : parser A) (q : parser B) : parser (A * B) :=
  fun s =>
    match p s with
    | None => None
    | Some (a, rest) =>
        match q rest with
        | None => None
        | Some (b, rest') => Some ((a, b), rest')
        end
    end.

(** [Optional(e)]: on failure nothing is consumed. *)
Definition Optional {A} (p : parser A) : parser (option A) :=
  fun s =>
    match p s with
    | Some (a, rest) => Some (Some a, rest)
    | None => Some (None, s)
    end.

(** [ZeroOrMore(e)] repeats [e] until it fails.  Each round of the
    loop takes one unit of [fuel]; [ZeroOrMore] gives it the length of
    the input, which is enough for every element that consumes at least
    one character when it matches ([ZeroOrMore_Word_stops]). *)
Fixpoint ZeroOrMore_loop {A} (fuel : nat) (p : parser A) (s : string)
  : list A * string :=
  match fuel with
  | O => ([], s)
  | S fuel' =>
      match p s with
      | None => ([], s)
      | Some (a, rest) =>
          let '(l, rest') := ZeroOrMore_loop fuel' p rest in
          (a :: l, rest')
      end
  end.

Definition ZeroOrMore {A} (p : parser A) : parser (list A) :=
  fun s => Some (ZeroOrMore_loop (String.length s) p s).

(** The named results of the pattern: [name], [lang] (absent when the
    optional group did not match) and [subjects]. *)
Record ParseResults : Type := {
  name : string;
  lang : option string;
  subjects : list string
}.

Definition subject_chars : string := alphanums +:+ "_[]|?.<>{}-=".

Definition pattern : parser ParseResults :=
  fun s =>
    match
      And (Word alphanums)
        (And (Optional (And (Suppress (Literal "-")) (Word alphas)))
             (ZeroOrMore (Word subject_chars))) s
    with
    | Some ((n, (l, subj)), rest) =>
        Some ({| name := n; lang := snd <$> l; subjects := subj |}, rest)
    | None => None
    end.

(** [pattern.parseString(line)]: [parseAll] is not set, so what is
    left of the line after the match is dropped. *)
Definition parseString {A} (p : parser A) (line : string) : option A :=
  fst <$> p line.

(** [', '.join(users)] *)
Definition join (sep : string) (l : list string) : string :=
  String.concat sep l.

(** ** The invocation context and the collaborators *)

(** The part of [Context] that the module reads: the words of the
    line, the rest of the line from each word on, and whether the line
    carried the command prefix. *)
Record Context : Type := {
  words : list string;
  words_eol : list string;
  prefixed : bool
}.

(** What [fact_manager.find] gives back; only [message] is read. *)
Record Fact : Type := { message : string }.

Section Dispatcher.
Context {env handler Permission : Type}.
Local Abbreviation pyval := (pyval handler Permission).
Local Abbreviation Command := (Command handler Permission).

(** Calls that leave the module, in the order they are made. *)
Inductive event : Type :=
  | EvGetRule (ws ws_eol : list string) (prefixless : bool)
  | EvCall (h : handler) (ctx : Context) (args : list pyval)
  | EvExists (fact_name fact_lang : string)
  | EvFind (fact_name fact_lang : string)
  | EvReply (ctx : Context) (msg : string).

(** The module's globals (the registry and the metrics), the state
    [ext] of everything outside it, and the calls made so far.  A
    histogram is kept as the number of its observations,
    [TIME_IN_COMMAND] as the labels observed. *)
Record state : Type := mkState {
  ext : env;
  _registered_commands : gmap string pyval;
  trace : list event;
  TRIGGER_TIME : nat;
  TRIGGER_MISS : nat;
  FACT_TIME : nat;
  TIME_IN_COMMAND : list string
}.

Definition M (A : Type) : Type := state → outcome A * state.

Definition ret {A} (a : A) : M A := fun st => (Return a, st).
Definition raise {A} (e : exn) : M A := fun st => (Raise e, st).
Definition bind {A B} (m : M A) (k : A → M B) : M B :=
  fun st =>
    match m st with
    | (Return a, st') => k a st'
    | (Raise e, st') => (Raise e, st')
    end.

Notation "'let*' x ':=' m 'in' k" := (bind m (fun x => k))
  (at level 10, x name, m at level 100, k at level 200, only parsing).

(** [try: body except psycopg2.Error: handler] *)
Definition try_except_psycopg2 {A} (body handler_ : M A) : M A :=
  fun st =>
    match body st with
    | (Raise e, st') =>
        if is_psycopg2_error e then handler_ st' else (Raise e, st')
    | r => r
    end.

(** A timer around [body]: the observation is made when [body] is
    left, by return or by exception, and the exception goes on
    ([Timer.__exit__] returns nothing; [aio_time] observes in a
    [finally]). *)
Definition timed {A} (observe : state → state) (body : M A) : M A :=
  fun st => let '(r, st') := body st in (r, observe st').

Definition set_ext (e : env) (st : state) : state :=
  mkState e (_registered_commands st) (trace st) (TRIGGER_TIME st)
    (TRIGGER_MISS st) (FACT_TIME st) (TIME_IN_COMMAND st).
Definition set_registry (r : gmap string pyval) (st : state) : state :=
  mkState (ext st) r (trace st) (TRIGGER_TIME st) (TRIGGER_MISS st)
    (FACT_TIME st) (TIME_IN_COMMAND st).
Definition log (ev : event) (st : state) : state :=
  mkState (ext st) (_registered_commands st) (trace st ++ [ev])
    (TRIGGER_TIME st) (TRIGGER_MISS st) (FACT_TIME st) (TIME_IN_COMMAND st).
Definition observe_TRIGGER_TIME (st : state) : state :=
  mkState (ext st) (_registered_commands st) (trace st)
    (S (TRIGGER_TIME st)) (TRIGGER_MISS st) (FACT_TIME st)
    (TIME_IN_COMMAND st).
Definition inc_TRIGGER_MISS (st : state) : state :=
  mkState (ext st) (_registered_commands st) (trace st) (TRIGGER_TIME st)
    (S (TRIGGER_MISS st)) (FACT_TIME st) (TIME_IN_COMMAND st).
Definition observe_FACT_TIME (st : state) : state :=
  mkState (ext st) (_registered_commands st) (trace st) (TRIGGER_TIME st)
    (TRIGGER_MISS st) (S (FACT_TIME st)) (TIME_IN_COMMAND st).
Definition observe_TIME_IN_COMMAND (command : string) (st : state) : state :=
  mkState (ext st) (_registered_commands st) (trace st) (TRIGGER_TIME st)
    (TRIGGER_MISS st) (FACT_TIME st) (TIME_IN_COMMAND st ++ [command]).

(** A call to a collaborator: it is recorded, then it runs on the
    outside state. *)
Definition extern {A} (ev : event) (f : env → outcome A * env) : M A :=
  fun st =>
    let st1 := log ev st in
    let '(r, e') := f (ext st1) in (r, set_ext e' st1).

(** [l[0]] *)
Definition first {A} (l : list A) : M A :=
  match l with
  | [] => raise IndexError
  | x :: _ => ret x
  end.

(** [str.casefold] *)
Variable casefold : string → string.

(** [get_rule(words, words_eol, prefixless)] of
    [src.packages.rules.rules]: the handler (or [None]) and the extra
    arguments. *)
Variable get_rule :
  list string → list string → bool → pyval * list pyval.

(** What calling the plain callable [h] with [ctx] and then [args]
    does.  Handlers and the other collaborators act on the outside
    state; they do not register commands or touch the metrics. *)
Variable run_handler :
  handler → Context → list pyval → env → outcome pyval * env.

(** [handle_ratmama_announcement] of [..ratmama.ratmama_parser]. *)
Variable handle_ratmama_announcement : handler.

(** [context.bot.fact_manager.exists], [.find] and [context.reply]. *)
Variable fact_manager_exists :
  string → string → env → outcome bool * env.
Variable fact_manager_find :
  string → string → env → outcome Fact * env.
Variable context_reply : Context → string → env → outcome pyval * env.

(** *** [Command.__call__] *)

(** [with TIME_IN_COMMAND.labels(command=self.aliases[0]).time():
    return await self.underlying(...)], given what calling
    [self.underlying] with the same arguments does. *)
Definition Command__call__ (self : Command) (call_underlying : M pyval)
  : M pyval :=
  let* command := first (aliases self) in
  timed (observe_TIME_IN_COMMAND command) call_underlying.

(** [await f(ctx, ...)] with the extra arguments [args] *)
Fixpoint call (f : pyval) (ctx : Context) (args : list pyval) {struct f}
  : M pyval :=
  match f with
  | PFunc h => extern (EvCall h ctx args) (run_handler h ctx args)
  | PCmd c => Command__call__ c (call (underlying c) ctx args)
  | _ => raise TypeError
  end.

(** *** [handle_fact] *)

(** The body of [handle_fact]; the [FACT_TIME] decorator is added in
    [handle_fact] below. *)
Definition handle_fact_body (context : Context) : M pyval :=
  let* line := first (words_eol context) in
  match parseString pattern line with
  | None => ret PNone
  | Some result =>
      let fact := name result in
      let lang_ := match lang result with Some l => l | None => "en" end in
      let users := subjects result in
      try_except_psycopg2
        (let* found :=
           extern (EvExists (casefold fact) (casefold lang_))
             (fact_manager_exists (casefold fact) (casefold lang_)) in
         if negb found then ret (PBool false)
         else
           let* fact_ :=
             extern (EvFind (casefold fact) (casefold lang_))
               (fact_manager_find (casefold fact) (casefold lang_)) in
           let msg :=
             join ", " users
               +:+ (match users with [] => "" | _ => ": " end)
               +:+ message fact_ in
           let* _ := extern (EvReply context msg) (context_reply context msg) in
           ret (PBool true))
        (ret (PBool false))
  end.

Definition handle_fact (context : Context) : M pyval :=
  timed observe_FACT_TIME (handle_fact_body context).

(** *** Registration *)

(** The loop of [_register] over the case-folded names. *)
Fixpoint _register_loop (func_ : pyval) (names : list string) : M unit :=
  match names with
  | [] => ret tt
  | alias :: names' =>
      fun st =>
        match _registered_commands st !! alias with
        | Some _ => (Raise (NameCollisionException alias), st)
        | None =>
            _register_loop func_ names'
              (set_registry (<[alias := func_]> (_registered_commands st)) st)
        end
  end.

(** [_register(func, names)]; [names] is one string or a list of them. *)
Definition _register (func_ : pyval) (names : string + list string)
  : M bool :=
  let names := match names with inl s => [s] | inr l => l end in
  let names := casefold <$> names in
  match func_ with
  | PNone => ret false
  | _ =>
      if negb (callable func_) then ret false
      else
        let* _ := _register_loop func_ names in
        ret true
  end.

(** [command(...aliases, ...kwargs)(func)]: the decorator returns
    [func] after building and registering the [Command]. *)
Definition command (aliases_ : list string)
    (require_permission_ require_channel_ require_direct_message_ : pyval)
    (func_ : pyval) : M pyval :=
  match
    Command_init func_ (PTuple (PStr <$> aliases_)) require_permission_
      require_channel_ require_direct_message_ PNone
  with
  | inl e => raise e
  | inr cmd =>
      let* ok := _register (PCmd cmd) (inr aliases_) in
      if negb ok then raise InvalidCommandException else ret func_
  end.

(** *** [trigger] *)

(** Lines 129 to 149: the registry when the line is prefixed and its
    first word is registered, the rule resolver otherwise.  The debug
    message of a prefixless match formats [ctx.words[0]]. *)
Definition select_handler (ctx : Context) : M (pyval * list pyval) :=
  if prefixed ctx then
    let* w := first (words ctx) in
    fun st =>
      match _registered_commands st !! casefold w with
      | Some command_fun => (Return (command_fun, []), st)
      | None =>
          (Return (get_rule (words ctx) (words_eol ctx) false),
           log (EvGetRule (words ctx) (words_eol ctx) false) st)
      end
  else
    let* sel :=
      (fun st =>
         (Return (get_rule (words ctx) (words_eol ctx) true),
          log (EvGetRule (words ctx) (words_eol ctx) true) st)) in
    if truthy (fst sel)
    then let* _ := first (words ctx) in ret sel
    else ret sel.

(** Lines 151 to 163: the announcement override, the call of the
    selected handler, and the fact fallback with the miss counter. *)
Definition dispatch (ctx : Context) (command_fun : pyval)
    (extra_args : list pyval) : M pyval :=
  let* line := first (words_eol ctx) in
  let command_fun :=
    if String.prefix "Incoming Client:" line
    then PFunc handle_ratmama_announcement
    else command_fun in
  if truthy command_fun then call command_fun ctx extra_args
  else
    let* result :=
      (if prefixed ctx then handle_fact ctx else ret (PBool false)) in
    if negb (truthy result)
    then fun st => (Return PNone, inc_TRIGGER_MISS st)
    else ret PNone.

Definition trigger_body (ctx : Context) : M pyval :=
  let* line := first (words_eol ctx) in
  if String.eqb line "" then ret PNone
  else
    let* sel := select_handler ctx in
    dispatch ctx (fst sel) (snd sel).

Definition trigger (ctx : Context) : M pyval :=
  timed observe_TRIGGER_TIME (trigger_body ctx).

End Dispatcher.

End rat_command.
Import rat_command.

(** ** Statement vocabulary *)

(** A construction fails validation when [__init__] raises. *)
Definition fails_validation {A} (r : exn + A) : Prop := ∃ e, r = inl e.

(** [None] or an instance of [Permission], as a Python value. *)
Definition permission_value {handler Permission} (p : option Permission)
  : pyval handler Permission :=
  match p with Some p => PPerm p | None => PNone end.

(** The registry after [func_] was stored under each of [names] in
    turn. *)
Definition register_all {V} (func_ : V) (names : list string)
    (registry : gmap string V) : gmap string V :=
  foldl (fun m alias => <[alias := func_]> m) registry names.

Definition is_get_rule_event {handler Permission}
    (ev : @event handler Permission) : bool :=
  match ev with EvGetRule _ _ _ => true | _ => false end.

Definition is_reply_event {handler Permission}
    (ev : @event handler Permission) : bool :=
  match ev with EvReply _ _ => true | _ => false end.

(** The first character of the line's first token, the tokens being
    separated by the whitespace that the grammar skips. *)
Definition first_token_char (line : string) : option ascii :=
  match skip_whitespace line with
  | EmptyString => None
  | String c _ => Some c
  end.

(** A parser is blind to [tail] when it behaves on [s +:+ tail] as it
    does on [s], leaving [tail] after what it leaves of [s]. *)
Definition blind_to {A} (tail : string) (p : parser A) : Prop :=
  ∀ s, p (s +:+ tail)
       = match p s with
         | Some (a, rest) => Some (a, rest +:+ tail)
         | None => None
         end.

(** Between [st] and [st'] the rule resolver was not called: the calls
    made since [st] are all of another kind. *)
Definition no_rule_lookup {env handler Permission}
    (st st' : @state env handler Permission) : Prop :=
  ∃ evs, trace st' = trace st ++ evs
         ∧ Forall (fun ev => is_get_rule_event ev = false) evs.

(** The tokenized form and the rest-of-line form of a [Context] are
    parallel: one entry per word in each. *)
Definition Context_parallel (ctx : Context) : Prop :=
  length (words ctx) = length (words_eol ctx).

(** ** A concrete instance

    Handlers are numbered; the outside state is a mode of the fact
    store: [1] makes the existence check fail, [2] makes the fetch
    fail, any other mode serves the fact [("n", "en")] with message
    ["m"]. *)
Module Demo.

Definition lower (c : ascii) : ascii :=
  let n := nat_of_ascii c in
  if (65 <=? n)%nat && (n <=? 90)%nat then ascii_of_nat (n + 32) else c.

(** [str.casefold] on ASCII text. *)
Fixpoint casefold (s : string) : string :=
  match s with
  | EmptyString => EmptyString
  | String c s' => String (lower c) (casefold s')
  end.

Definition value : Type := pyval nat unit.

Definition get_rule (ws ws_eol : list string) (prefixless : bool)
  : value * list value :=
  match ws with
  | w :: _ =>
      if String.eqb w "Incoming" || String.eqb w "rule"
      then (PFunc 2, [PStr "arg"])
      else (PNone, [])
  | [] => (PNone, [])
  end.

Definition run_handler (h : nat) (ctx : Context) (args : list value)
    (e : nat) : outcome value * nat :=
  match h with
  | 3 => (Raise (OtherException 7), e)
  | _ => (Return (PInt (Z.of_nat h)), e)
  end.

Definition handle_ratmama_announcement : nat := 9.

Definition fact_manager_exists (n l : string) (e : nat)
  : outcome bool * nat :=
  match e with
  | 1 => (Raise (Psycopg2Error 0), e)
  | _ => (Return (String.eqb n "n" && String.eqb l "en"), e)
  end.

Definition fact_manager_find (n l : string) (e : nat)
  : outcome Fact * nat :=
  match e with
  | 2 => (Raise (Psycopg2Error 1), e)
  | _ => (Return {| message := "m" |}, e)
  end.

Definition context_reply (ctx : Context) (msg : string) (e : nat)
  : outcome value * nat := (Return PNone, e).

Definition state0 (mode : nat) (registry : gmap string value)
  : @state nat nat unit :=
  mkState mode registry [] 0 0 0 [].

Definition line_context (is_prefixed : bool) (ws ws_eol : list string)
  : Context :=
  {| words := ws; words_eol := ws_eol; prefixed := is_prefixed |}.

Definition trigger : Context → @state nat nat unit → _ :=
  trigger casefold get_rule run_handler handle_ratmama_announcement
    fact_manager_exists fact_manager_find context_reply.

Definition handle_fact : Context → @state nat nat unit → _ :=
  handle_fact casefold fact_manager_exists fact_manager_find context_reply.

End Demo.

(** A store whose existence check fails with an error that is not a
    [psycopg2.Error]. *)
Module Broken.

Definition fact_manager_exists (n l : string) (e : nat)
  : outcome bool * nat := (Raise (OtherException 5), e).

Definition handle_fact : Context → @state nat nat unit → _ :=
  handle_fact Demo.casefold fact_manager_exists Demo.fact_manager_find
    Demo.context_reply.

End Broken.

(** ** More statement vocabulary *)

(** Every character of [s] is one of [cs]. *)
Fixpoint all_chars (cs s : string) : bool :=
  match s with
  | EmptyString => true
  | String c s' => in_chars c cs && all_chars cs s'
  end.

(** Every subject after one space. *)
Fixpoint spaced (subj : list string) : string :=
  match subj with
  | [] => EmptyString
  | s :: subj' => String " " (s +:+ spaced subj')
  end.

(** A fact line written out: the name, [-lang] when there is a
    language, then every subject after one space. *)
Definition fact_line (n : string) (l : option string) (subj : list string)
  : string :=
  n +:+ (match l with Some l => String "-" l | None => EmptyString end)
    +:+ spaced subj.

(** The names of a registration call as a list. *)
Definition names_list (names : string + list string) : list string :=
  match names with inl s => [s] | inr l => l end.

(** * administration.py

    The bodies of [cmd_rehash] and [cmd_version].  The decorators
    ([command], [require_channel], [require_permission]) wrap them and
    are not part of the bodies. *)
Module administration.

Inductive exn : Type :=
  | KeyError
  | ValueError
  | FileNotFoundError
  | TypeError
  | OtherException (tag : nat).

Inductive outcome (A : Type) : Type :=
  | Return (a : A)
  | Raise (e : exn).
Arguments Return {A} a.
Arguments Raise {A} e.

(** The values of a loaded TOML document. *)
Inductive toml : Type :=
  | TString (s : string)
  | TInteger (z : Z)
  | TBoolean (b : bool)
  | TArray (l : list toml)
  | TTable (kv : list (string * toml)).

(** [d[key]] on a dict. *)
Fixpoint dict_get (kv : list (string * toml)) (key : string) : outcome toml :=
  match kv with
  | [] => Raise KeyError
  | (k, v) :: kv' => if String.eqb k key then Return v else dict_get kv' key
  end.

(** [v[key]] with a string key: only a dict can be indexed by it. *)
Definition getitem (v : toml) (key : string) : outcome toml :=
  match v with
  | TTable kv => dict_get kv key
  | _ => Raise TypeError
  end.

(** [s + v] with [s] a string. *)
Definition str_add (s : string) (v : toml) : outcome string :=
  match v with
  | TString t => Return (s +:+ t)
  | _ => Raise TypeError
  end.

(** [s[:n]] *)
Fixpoint str_take (n : nat) (s : string) : string :=
  match n, s with
  | S n', String c s' => String c (str_take n' s')
  | _, _ => EmptyString
  end.

(** ["Version " + toml_data["tool"]["poetry"]["version"]], the text
    that [cmd_version] sends for the loaded document. *)
Definition version_text (toml_data : list (string * toml)) : outcome string :=
  match dict_get toml_data "tool" with
  | Raise e => Raise e
  | Return tool =>
      match getitem tool "poetry" with
      | Raise e => Raise e
      | Return poetry =>
          match getitem poetry "version" with
          | Raise e => Raise e
          | Return version => str_add "Version " version
          end
      end
  end.

Section Commands.
(** [env] is the state outside the module (the file system, the
    configuration, the connection), [value] what [context.reply]
    returns, [config] the first component of what [setup] returns. *)
Context {env value config : Type}.

(** The outside state and the replies sent so far through
    [context.reply], each recorded when it is made. *)
Record world : Type := mkWorld {
  outside : env;
  replies : list string
}.

Definition M (A : Type) : Type := world → outcome A * world.

Definition ret {A} (a : A) : M A := fun w => (Return a, w).
Definition raise {A} (e : exn) : M A := fun w => (Raise e, w).
Definition bind {A B} (m : M A) (k : A → M B) : M B :=
  fun w =>
    match m w with
    | (Return a, w') => k a w'
    | (Raise e, w') => (Raise e, w')
    end.
Definition lift {A} (r : outcome A) : M A := fun w => (r, w).

Notation "'let*' x ':=' m 'in' k" := (bind m (fun x => k))
  (at level 10, x name, m at level 100, k at level 200, only parsing).

(** A call that acts on the outside state. *)
Definition outside_call {A} (f : env → outcome A * env) : M A :=
  fun w => let '(r, e') := f (outside w) in (r, mkWorld e' (replies w)).

(** [context.reply] *)
Variable context_reply : string → env → outcome value * env.

Definition reply (msg : string) : M value :=
  fun w =>
    let '(r, e') := context_reply msg (outside w) in
    (r, mkWorld e' (replies w ++ [msg])).

(** [os.path.isfile] and [toml.load] *)
Variable isfile : string → env → bool.
Variable toml_load : string → env → outcome (list (string * toml)) * env.

(** [cli_manager.GET_ARGUMENTS().config_file] and [setup] of
    [..config]. *)
Variable config_file : env → string.
Variable setup : string → env → outcome (config * string) * env.

(** The [try] block of [cmd_version]. *)
Definition cmd_version_try : M value :=
  fun w =>
    if isfile "pyproject.toml" (outside w) then
      (let* toml_data := outside_call (toml_load "pyproject.toml") in
       let* tool := lift (dict_get toml_data "tool") in
       let* poetry := lift (getitem tool "poetry") in
       let* version := lift (getitem poetry "version") in
       let* text := lift (str_add "Version " version) in
       reply text) w
    else (Raise FileNotFoundError, w).

(** [cmd_version]: the [return] inside the [try] ends the call; after
    a [FileNotFoundError] or a [KeyError] the default version is
    sent. *)
Definition cmd_version : M value :=
  fun w =>
    match cmd_version_try w with
    | (Return v, w') => (Return v, w')
    | (Raise FileNotFoundError, w') | (Raise KeyError, w') =>
        reply "version ?.?.? (dirty)" w'
    | (Raise e, w') => (Raise e, w')
    end.

(** [cmd_rehash]: the replies of the [except] and [else] branches are
    outside the [try]. *)
Definition cmd_rehash : M unit :=
  fun w =>
    let path := config_file (outside w) in
    (let* _ := reply "reloading configuration..." in
     fun w1 =>
       match outside_call (setup path) w1 with
       | (Return (_, resulting_hash), w2) =>
           (let* _ :=
              reply ("rehashing completed successfully. ("
                       +:+ str_take 8 resulting_hash +:+ ") ") in
            ret tt) w2
       | (Raise KeyError, w2) | (Raise ValueError, w2) =>
           (let* _ :=
              reply "unable to rehash configuration file see logfile for details." in
            ret tt) w2
       | (Raise e, w2) => (Raise e, w2)
       end) w.

End Commands.

(** A concrete outside state: the files present with their TOML
    content, and what [setup] does. *)
Module Demo.

Record files : Type := {
  pyproject : option (list (string * toml));
  setup_result : outcome (unit * string)
}.

Definition context_reply (msg : string) (e : files)
  : outcome unit * files := (Return tt, e).
Definition isfile (p : string) (e : files) : bool :=
  match pyproject e with Some _ => true | None => false end.
Definition toml_load (p : string) (e : files)
  : outcome (list (string * toml)) * files :=
  match pyproject e with
  | Some d => (Return d, e)
  | None => (Raise FileNotFoundError, e)
  end.
Definition config_file (e : files) : string := "config.toml".
Definition setup (p : string) (e : files)
  : outcome (unit * string) * files := (setup_result e, e).

Definition poetry_project (version : toml) : list (string * toml) :=
  [("build-system", TTable []);
   ("tool", TTable [("poetry", TTable [("name", TString "mecha");
                                        ("version", version)])])].

End Demo.

End administration.

(** ** Construction of a [Command] *)

Section Construction.
Context {handler Permission : Type}.
Local Abbreviation pyval := (pyval handler Permission).

Lemma validate_members_strs (l : list string) :
  validate_members instance_of_str (PStr <$> l : list pyval) = None.
Proof. induction l as [|s l IH]; simpl; auto. Qed.

Lemma strs_of_strs (l : list string) :
  strs_of (PStr <$> l : list pyval) = l.
Proof.
  unfold strs_of.
  induction l as [|s l IH]; [reflexivity|].
  cbn. f_equal. exact IH.
Qed.

Lemma aliases_validator_strs (l : list string) :
  aliases_validator (PTuple (PStr <$> l) : pyval)
  = match l with [] => Some ValueError | _ => None end.
Proof.
  unfold aliases_validator, and_, deep_iterable. simpl.
  rewrite validate_members_strs.
  unfold truthy_validator. destruct l; reflexivity.
Qed.

(** For well-typed arguments the constructor stores them when the
    handler is callable and there is at least one alias. *)
Lemma Command_init_typed (f : pyval) (al : list string)
    (perm : option Permission) (rc rd : bool) (fn : pyval) :
  Command_init f (PTuple (PStr <$> al)) (permission_value perm)
    (PBool rc) (PBool rd) fn
  = if callable f then
      match al with
      | [] => inl ValueError
      | _ => inr (mkCommand f al perm rc rd fn)
      end
    else inl NotCallableError.
Proof.
  unfold Command_init, is_callable.
  destruct (callable f); [|reflexivity].
  rewrite aliases_validator_strs.
  destruct al as [|a al]; [reflexivity|].
  rewrite strs_of_strs.
  destruct perm; reflexivity.
Qed.

(** A constructed [Command] has a first alias, so its
    [__call__] finds the label of its timer. *)
Lemma Command_init_aliases (u a p rc rd fn : pyval)
    (c : Command handler Permission) :
  Command_init u a p rc rd fn = inr c → aliases c ≠ [].
Proof.
  unfold Command_init.
  destruct (is_callable u); [discriminate|].
  destruct (aliases_validator a) eqn:Ha; [discriminate|].
  destruct (optional instance_of_Permission p); [discriminate|].
  destruct (instance_of_bool rc); [discriminate|].
  destruct (instance_of_bool rd); [discriminate|].
  intros H. injection H as <-. cbn [aliases].
  unfold aliases_validator, and_, deep_iterable in Ha.
  destruct a as [| | | | l | | | |]; try discriminate.
  cbn [instance_of_tuple] in Ha.
  destruct l as [|v l]; [discriminate|].
  cbn [validate_members] in Ha.
  destruct v; discriminate.
Qed.

(** C4, as amended: for a tuple of strings as aliases and well-typed
    option fields, construction fails validation exactly when the
    handler is not callable or the alias tuple is empty.  Truthiness is
    checked on the tuple, not on its entries, so empty-string aliases
    do not make it fail. *)
Theorem Command_init_fails_iff (f : pyval) (al : list string)
    (perm : option Permission) (rc rd : bool) (fn : pyval) :
  fails_validation
    (Command_init f (PTuple (PStr <$> al)) (permission_value perm)
       (PBool rc) (PBool rd) fn)
  ↔ callable f = false ∨ al = [].
Proof.
  rewrite Command_init_typed. unfold fails_validation.
  destruct (callable f) eqn:Hc.
  - destruct al as [|a al].
    + split; [auto | intros _; eauto].
    + split.
      * intros [e He]. discriminate.
      * intros [H|H]; discriminate.
  - split; [auto | intros _; eauto].
Qed.

End Construction.

(** C4, as stated, fails: the alias tuple [("",)] has a falsy entry,
    yet the construction succeeds. *)
Lemma Command_init_empty_string_alias :
  ¬ (fails_validation
       (Command_init (PFunc 0 : Demo.value) (PTuple [PStr ""]) PNone
          (PBool false) (PBool false) PNone)
     ↔ (callable (PFunc 0 : Demo.value) = false
        ∨ ([PStr ""] : list Demo.value) = []
        ∨ ∃ v : Demo.value, v ∈ [PStr ""] ∧ truthy v = false)).
Proof.
  intros [_ H].
  destruct H as [e He].
  - right. right. exists (PStr ""). split; [apply list_elem_of_here | reflexivity].
  - discriminate.
Qed.

(** ** Registration *)

Section Registration.
Context {env handler Permission : Type}.
Local Abbreviation pyval := (pyval handler Permission).
Local Abbreviation state := (@state env handler Permission).
Variable casefold : string → string.

Lemma set_registry_same (st : state) :
  set_registry (_registered_commands st) st = st.
Proof. destruct st; reflexivity. Qed.

Lemma register_all_lookup_other {V} (v : V) (names : list string)
    (reg : gmap string V) (k : string) :
  k ∉ names → register_all v names reg !! k = reg !! k.
Proof.
  revert reg. induction names as [|a names IH]; intros reg Hk.
  - reflexivity.
  - apply not_elem_of_cons in Hk as [Hne Hk].
    unfold register_all in *. simpl. rewrite IH by exact Hk.
    apply lookup_insert_ne. congruence.
Qed.

Lemma register_all_lookup_in {V} (v : V) (names : list string)
    (reg : gmap string V) (k : string) :
  k ∈ names → register_all v names reg !! k = Some v.
Proof.
  revert reg. induction names as [|a names IH]; intros reg Hk.
  - inversion Hk.
  - unfold register_all in *. simpl.
    destruct (decide (k ∈ names)) as [Hin|Hnin].
    + apply IH, Hin.
    + apply elem_of_cons in Hk as [->|Hin]; [|contradiction].
      fold (register_all v names (<[a:=v]> reg)).
      rewrite register_all_lookup_other by exact Hnin.
      apply lookup_insert_eq.
Qed.

(** The loop stops at the first name that is already a key, be it
    from before the call or from an earlier round of the same call;
    the names before it have been stored. *)
Lemma _register_loop_collision (func_ : pyval) (pre : list string)
    (a : string) (post : list string) (st : state) :
  NoDup pre →
  (∀ k, k ∈ pre → _registered_commands st !! k = None) →
  is_Some (_registered_commands st !! a) ∨ a ∈ pre →
  _register_loop func_ (pre ++ a :: post) st
  = (Raise (NameCollisionException a),
     set_registry (register_all func_ pre (_registered_commands st)) st).
Proof.
  revert st. induction pre as [|k pre IH]; intros st Hnd Hfree Hcol.
  - simpl. destruct Hcol as [[v Hv]|Hin]; [|inversion Hin].
    rewrite Hv. unfold register_all. simpl.
    now rewrite set_registry_same.
  - simpl. rewrite (Hfree k) by apply list_elem_of_here.
    apply NoDup_cons in Hnd as [Hk Hnd].
    rewrite IH; [reflexivity | exact Hnd | |].
    + intros k' Hk'. simpl. rewrite lookup_insert_ne by congruence.
      apply Hfree. now apply list_elem_of_further.
    + simpl. destruct Hcol as [[v Hv]|Hin].
      * left. rewrite lookup_insert_ne; [eauto|].
        intros ->. rewrite (Hfree a) in Hv by apply list_elem_of_here.
        discriminate.
      * apply elem_of_cons in Hin as [->|Hin]; [|now right].
        left. rewrite lookup_insert_eq. eauto.
Qed.

(** When no name is a key and no name occurs twice, all are stored. *)
Lemma _register_loop_fresh (func_ : pyval) (names : list string)
    (st : state) :
  NoDup names →
  (∀ k, k ∈ names → _registered_commands st !! k = None) →
  _register_loop func_ names st
  = (Return tt,
     set_registry (register_all func_ names (_registered_commands st)) st).
Proof.
  revert st. induction names as [|k names IH]; intros st Hnd Hfree.
  - simpl. unfold register_all. simpl. now rewrite set_registry_same.
  - simpl. rewrite (Hfree k) by apply list_elem_of_here.
    apply NoDup_cons in Hnd as [Hk Hnd].
    rewrite IH; [reflexivity | exact Hnd |].
    intros k' Hk'. simpl. rewrite lookup_insert_ne by congruence.
    apply Hfree. now apply list_elem_of_further.
Qed.

(** A list with a name that is a key splits at its first collision. *)
Lemma first_collision {V} (v : V) (names : list string)
    (reg : gmap string V) :
  (∃ x, x ∈ names ∧ is_Some (reg !! x)) →
  ∃ pre a post,
    names = pre ++ a :: post ∧ NoDup pre
    ∧ (∀ k, k ∈ pre → reg !! k = None)
    ∧ (is_Some (reg !! a) ∨ a ∈ pre).
Proof.
  revert reg. induction names as [|k names IH]; intros reg [x [Hx Hsome]].
  - inversion Hx.
  - destruct (reg !! k) as [w|] eqn:Hk.
    + exists [], k, names. repeat split; [constructor | | left; eauto].
      intros k' Hk'. inversion Hk'.
    + assert (Hx' : x ∈ names ∧ x ≠ k).
      { apply elem_of_cons in Hx as [->|Hx].
        - rewrite Hk in Hsome. destruct Hsome; discriminate.
        - split; [exact Hx|]. intros ->. rewrite Hk in Hsome.
          destruct Hsome; discriminate. }
      destruct Hx' as [Hx' Hne].
      destruct (IH (<[k:=v]> reg)) as (pre & a & post & -> & Hnd & Hfree & Hcol).
      { exists x. split; [exact Hx'|]. now rewrite lookup_insert_ne. }
      assert (Hkpre : k ∉ pre).
      { intros Hin. apply Hfree in Hin. rewrite lookup_insert_eq in Hin.
        discriminate. }
      exists (k :: pre), a, post. repeat split.
      * now apply NoDup_cons.
      * intros k' Hk'. apply elem_of_cons in Hk' as [->|Hk']; [exact Hk|].
        specialize (Hfree k' Hk').
        rewrite lookup_insert_ne in Hfree; [exact Hfree|].
        intros ->. contradiction.
      * destruct Hcol as [Hs|Hin]; [|right; now apply list_elem_of_further].
        destruct (decide (k = a)) as [->|Hka].
        -- right. apply list_elem_of_here.
        -- left. now rewrite lookup_insert_ne in Hs.
Qed.

(** [_register] only ever stores callables. *)
Lemma _register_loop_callable (func_ : pyval) (names : list string)
    (st : state) :
  callable func_ = true →
  map_Forall (fun _ v => callable v = true) (_registered_commands st) →
  map_Forall (fun _ v => callable v = true)
    (_registered_commands (snd (_register_loop func_ names st))).
Proof.
  intros Hc. revert st. induction names as [|k names IH]; intros st Hall.
  - exact Hall.
  - simpl. destruct (_registered_commands st !! k); [exact Hall|].
    apply IH. simpl. now apply map_Forall_insert_2.
Qed.

(** C3, as amended: when the handler is callable and some case-folded
    name is already registered, the call raises the collision error at
    the first colliding name, that is the first name that is a key of
    the registry or repeats an earlier name of the call, the names
    before it being distinct and free; those names stay registered to
    the handler, every other key is as before, and the registry is as
    it was only when no name precedes the collision. *)
Theorem register_collision_keeps_earlier (func_ : pyval)
    (names : list string) (st : state) :
  callable func_ = true →
  (∃ x, x ∈ casefold <$> names ∧ is_Some (_registered_commands st !! x)) →
  ∃ pre a post,
    casefold <$> names = pre ++ a :: post
    ∧ NoDup pre
    ∧ (is_Some (_registered_commands st !! a) ∨ a ∈ pre)
    ∧ _register casefold func_ (inr names) st
      = (Raise (NameCollisionException a),
         set_registry (register_all func_ pre (_registered_commands st)) st)
    ∧ (∀ k, k ∈ pre →
         _registered_commands st !! k = None
         ∧ register_all func_ pre (_registered_commands st) !! k
           = Some func_)
    ∧ (∀ k, k ∉ pre →
         register_all func_ pre (_registered_commands st) !! k
         = _registered_commands st !! k)
    ∧ (register_all func_ pre (_registered_commands st)
       = _registered_commands st ↔ pre = []).
Proof.
  intros Hc Hex.
  destruct (first_collision func_ _ _ Hex)
    as (pre & a & post & Heq & Hnd & Hfree & Hcol).
  exists pre, a, post. split; [exact Heq|]. split; [exact Hnd|].
  split; [exact Hcol|]. split; [|split; [|split]].
  - unfold _register. rewrite Heq.
    assert (Hloop := _register_loop_collision func_ pre a post st Hnd Hfree Hcol).
    destruct func_; try discriminate; simpl; unfold bind; now rewrite Hloop.
  - intros k Hk. split; [now apply Hfree|].
    now apply register_all_lookup_in.
  - intros k Hk. now apply register_all_lookup_other.
  - split.
    + intros Hsame. destruct pre as [|k pre]; [reflexivity|].
      assert (Hk : k ∈ k :: pre) by apply list_elem_of_here.
      pose proof (register_all_lookup_in func_ (k :: pre)
                    (_registered_commands st) k Hk) as Hin.
      rewrite Hsame, (Hfree k Hk) in Hin. discriminate.
    + intros ->. reflexivity.
Qed.

End Registration.

(** C3, as stated, fails: with ["b"] registered, registering
    [["A"; "b"]] raises the collision error on ["b"] and leaves
    ["a"] registered. *)
Lemma register_not_atomic :
  let st := Demo.state0 0 {[ "b" := PFunc 1 ]} in
  let r := _register Demo.casefold (PFunc 0) (inr ["A"; "b"]) st in
  is_Some (_registered_commands st !! "b")
  ∧ fst r = Raise (NameCollisionException "b")
  ∧ _registered_commands (snd r) ≠ _registered_commands st.
Proof.
  split; [|split].
  - vm_compute. eauto.
  - vm_compute. reflexivity.
  - intros Heq.
    assert (H : _registered_commands
                  (snd (_register Demo.casefold (PFunc 0 : Demo.value)
                          (inr ["A"; "b"])
                          (Demo.state0 0 {[ "b" := PFunc 1 ]}))) !! "a"
                = Some (PFunc 0)) by (vm_compute; reflexivity).
    rewrite Heq in H. vm_compute in H. discriminate.
Qed.

(** C3, as amended, at that call. *)
Lemma register_collision_keeps_earlier_witness :
  let st := Demo.state0 0 {[ "b" := PFunc 1 ]} in
  ∃ pre a post,
    Demo.casefold <$> ["A"; "b"] = pre ++ a :: post
    ∧ NoDup pre
    ∧ (is_Some (_registered_commands st !! a) ∨ a ∈ pre)
    ∧ _register Demo.casefold (PFunc 0) (inr ["A"; "b"]) st
      = (Raise (NameCollisionException a),
         set_registry (register_all (PFunc 0) pre (_registered_commands st))
           st)
    ∧ (∀ k, k ∈ pre →
         _registered_commands st !! k = None
         ∧ register_all (PFunc 0) pre (_registered_commands st) !! k
           = Some (PFunc 0))
    ∧ (∀ k, k ∉ pre →
         register_all (PFunc 0) pre (_registered_commands st) !! k
         = _registered_commands st !! k)
    ∧ (register_all (PFunc 0) pre (_registered_commands st)
       = _registered_commands st ↔ pre = []).
Proof.
  intros st.
  apply (register_collision_keeps_earlier Demo.casefold (PFunc 0)
           ["A"; "b"] st).
  - reflexivity.
  - exists "b". split.
    + vm_compute. apply list_elem_of_further, list_elem_of_here.
    + vm_compute. eauto.
Defined.

(** ** The fact grammar *)

Section Grammar.

Lemma in_chars_app (c : ascii) (a b : string) :
  in_chars c (a +:+ b) = in_chars c a || in_chars c b.
Proof.
  induction a as [|d a IH]; simpl; [reflexivity|].
  rewrite IH. apply orb_assoc.
Qed.

Lemma string_length_app (a b : string) :
  String.length (a +:+ b) = String.length a + String.length b.
Proof. induction a as [|d a IH]; simpl; [reflexivity | now rewrite IH]. Qed.

Lemma skip_whitespace_length (s : string) :
  (String.length (skip_whitespace s) ≤ String.length s)%nat.
Proof.
  induction s as [|c s IH]; cbn [skip_whitespace]; [lia|].
  destruct (in_chars c DEFAULT_WHITE_CHARS); cbn [String.length]; lia.
Qed.

Lemma span_length (cs s : string) :
  String.length (fst (span cs s)) + String.length (snd (span cs s))
  = String.length s.
Proof.
  induction s as [|c s IH]; simpl; [reflexivity|].
  destruct (in_chars c cs); [|reflexivity].
  destruct (span cs s) as [tok rest]. simpl in *. lia.
Qed.

(** A matching [Word] consumes at least one character. *)
Lemma Word_consumes (cs s tok rest : string) :
  Word cs s = Some (tok, rest) →
  tok ≠ EmptyString ∧ String.length rest < String.length s.
Proof.
  unfold Word. intros H.
  pose proof (span_length cs (skip_whitespace s)) as Hlen.
  pose proof (skip_whitespace_length s) as Hskip.
  destruct (span cs (skip_whitespace s)) as [t r].
  destruct t as [|d t]; [discriminate|].
  injection H as <- <-. simpl in *. split; [discriminate | lia].
Qed.

(** [Word] matches exactly when the first character after the
    whitespace is one of its characters. *)
Lemma Word_matches (cs s : string) (c : ascii) :
  first_token_char s = Some c →
  in_chars c cs = true →
  ∃ tok rest, Word cs s = Some (String c tok, rest).
Proof.
  unfold first_token_char, Word. intros Hc Hin.
  destruct (skip_whitespace s) as [|d s']; [discriminate|].
  injection Hc as ->. simpl. rewrite Hin.
  destruct (span cs s') as [tok rest]. eauto.
Qed.

Lemma Word_fails (cs s : string) :
  Word cs s = None ↔
  match first_token_char s with
  | Some c => in_chars c cs = false
  | None => True
  end.
Proof.
  unfold first_token_char, Word.
  destruct (skip_whitespace s) as [|d s']; simpl; [tauto|].
  destruct (in_chars d cs).
  - destruct (span cs s'). split; discriminate.
  - tauto.
Qed.

(** The loop of [ZeroOrMore] over a [Word] ends because the [Word]
    has stopped matching, not because the fuel has run out. *)
Lemma ZeroOrMore_loop_stops (cs : string) (fuel : nat) (s : string)
    (l : list string) (rest : string) :
  (String.length s ≤ fuel)%nat →
  ZeroOrMore_loop fuel (Word cs) s = (l, rest) →
  Word cs rest = None.
Proof.
  revert s l rest. induction fuel as [|fuel IH]; intros s l rest Hlen H.
  - simpl in H. injection H as <- <-.
    destruct s; [reflexivity | simpl in Hlen; lia].
  - simpl in H. destruct (Word cs s) as [[tok r]|] eqn:Hw.
    + apply Word_consumes in Hw as [_ Hlt].
      destruct (ZeroOrMore_loop fuel (Word cs) r) as [l' r'] eqn:Hl.
      injection H as <- <-. apply (IH r l'); [lia | exact Hl].
    + injection H as <- <-. exact Hw.
Qed.

Lemma ZeroOrMore_Word_stops (cs s : string) (l : list string)
    (rest : string) :
  ZeroOrMore (Word cs) s = Some (l, rest) → Word cs rest = None.
Proof.
  unfold ZeroOrMore. intros H. injection H as H.
  now apply (ZeroOrMore_loop_stops cs (String.length s) s l).
Qed.

Lemma Optional_total {A} (p : parser A) (s : string) :
  ∃ a rest, Optional p s = Some (a, rest).
Proof. unfold Optional. destruct (p s) as [[a rest]|]; eauto. Qed.

Lemma ZeroOrMore_total {A} (p : parser A) (s : string) :
  ∃ l rest, ZeroOrMore p s = Some (l, rest).
Proof.
  unfold ZeroOrMore.
  destruct (ZeroOrMore_loop (String.length s) p s) as [l rest]. eauto.
Qed.

Lemma And_matches {A B} (p : parser A) (q : parser B) (s : string)
    (a : A) (rest : string) (b : B) (rest' : string) :
  p s = Some (a, rest) → q rest = Some (b, rest') →
  And p q s = Some ((a, b), rest').
Proof. intros Hp Hq. unfold And. now rewrite Hp, Hq. Qed.

(** *** Text after the match *)

(** [tail] starts with a character that is neither whitespace nor a
    subject character: no element can take it. *)
Variable c : ascii.
Variable junk : string.
Hypothesis c_not_white : in_chars c DEFAULT_WHITE_CHARS = false.
Hypothesis c_not_subject : in_chars c subject_chars = false.

Local Abbreviation tail := (String c junk).

Local Abbreviation blind := (blind_to tail).

Lemma c_not_alphanums : in_chars c alphanums = false.
Proof.
  pose proof c_not_subject as H. unfold subject_chars in H.
  rewrite in_chars_app in H. now apply orb_false_elim in H as [H _].
Qed.

Lemma c_not_alphas : in_chars c alphas = false.
Proof.
  pose proof c_not_alphanums as H. unfold alphanums in H.
  rewrite in_chars_app in H. now apply orb_false_elim in H as [H _].
Qed.

Lemma c_not_dash : Ascii.eqb "-" c = false.
Proof.
  destruct (Ascii.eqb "-" c) eqn:E; [|reflexivity].
  apply Ascii.eqb_eq in E. subst c.
  pose proof c_not_subject as H. vm_compute in H. discriminate.
Qed.

Lemma skip_whitespace_tail (s : string) :
  skip_whitespace (s +:+ tail) = skip_whitespace s +:+ tail.
Proof.
  induction s as [|d s IH].
  - change (skip_whitespace tail = tail). cbn [skip_whitespace].
    now rewrite c_not_white.
  - change (String d s +:+ tail) with (String d (s +:+ tail)).
    cbn [skip_whitespace].
    destruct (in_chars d DEFAULT_WHITE_CHARS); [exact IH | reflexivity].
Qed.

Lemma span_tail (cs s : string) :
  in_chars c cs = false →
  span cs (s +:+ tail) = (fst (span cs s), snd (span cs s) +:+ tail).
Proof.
  intros Hc. induction s as [|d s IH]; simpl.
  - now rewrite Hc.
  - destruct (in_chars d cs); [|reflexivity].
    rewrite IH. destruct (span cs s). reflexivity.
Qed.

Lemma Word_blind (cs : string) : in_chars c cs = false → blind (Word cs).
Proof.
  intros Hc s. unfold Word.
  rewrite skip_whitespace_tail, span_tail by exact Hc.
  destruct (span cs (skip_whitespace s)) as [tok rest]. simpl.
  destruct tok; reflexivity.
Qed.

Lemma Literal_dash_blind : blind (Literal "-").
Proof.
  intros s. unfold Literal. rewrite skip_whitespace_tail.
  destruct (skip_whitespace s) as [|d s'].
  - change (EmptyString +:+ tail) with tail.
    cbn [strip_prefix]. now rewrite c_not_dash.
  - change (String d s' +:+ tail) with (String d (s' +:+ tail)).
    cbn [strip_prefix]. destruct (Ascii.eqb "-" d); reflexivity.
Qed.

Lemma Suppress_blind {A} (p : parser A) : blind p → blind (Suppress p).
Proof.
  intros Hp s. unfold Suppress. rewrite Hp.
  destruct (p s) as [[a rest]|]; reflexivity.
Qed.

Lemma And_blind {A B} (p : parser A) (q : parser B) :
  blind p → blind q → blind (And p q).
Proof.
  intros Hp Hq s. unfold And. rewrite Hp.
  destruct (p s) as [[a rest]|]; [|reflexivity].
  rewrite Hq. destruct (q rest) as [[b rest']|]; reflexivity.
Qed.

Lemma Optional_blind {A} (p : parser A) : blind p → blind (Optional p).
Proof.
  intros Hp s. unfold Optional. rewrite Hp.
  destruct (p s) as [[a rest]|]; reflexivity.
Qed.

Lemma ZeroOrMore_loop_tail (cs : string) (m n : nat) (s : string) :
  in_chars c cs = false →
  (String.length s ≤ m)%nat →
  (String.length (s +:+ tail) ≤ n)%nat →
  ZeroOrMore_loop n (Word cs) (s +:+ tail)
  = (fst (ZeroOrMore_loop m (Word cs) s),
     snd (ZeroOrMore_loop m (Word cs) s) +:+ tail).
Proof.
  intros Hc. revert n s. induction m as [|m IH]; intros n s Hm Hn.
  - destruct s; [|simpl in Hm; lia].
    destruct n; [simpl in Hn; lia|].
    simpl ZeroOrMore_loop at 2 3.
    change (ZeroOrMore_loop (S n) (Word cs) ("" +:+ tail))
      with (match Word cs ("" +:+ tail) with
            | None => ([], "" +:+ tail)
            | Some (a, rest) =>
                let '(l, rest') := ZeroOrMore_loop n (Word cs) rest in
                (a :: l, rest')
            end).
    rewrite (Word_blind cs Hc ""). reflexivity.
  - rewrite string_length_app in Hn. simpl in Hn.
    destruct n; [lia|].
    simpl. rewrite (Word_blind cs Hc s).
    destruct (Word cs s) as [[tok r]|] eqn:Hw; [|reflexivity].
    apply Word_consumes in Hw as [_ Hlt].
    rewrite (IH n r); [| lia | rewrite string_length_app; simpl; lia].
    destruct (ZeroOrMore_loop m (Word cs) r). reflexivity.
Qed.

Lemma ZeroOrMore_Word_blind (cs : string) :
  in_chars c cs = false → blind (ZeroOrMore (Word cs)).
Proof.
  intros Hc s. unfold ZeroOrMore.
  rewrite (ZeroOrMore_loop_tail cs (String.length s)) by (exact Hc || lia).
  destruct (ZeroOrMore_loop (String.length s) (Word cs) s). reflexivity.
Qed.

Lemma pattern_blind : blind pattern.
Proof.
  intros s. unfold pattern.
  rewrite (And_blind _ _ (Word_blind alphanums c_not_alphanums)
             (And_blind _ _
                (Optional_blind _
                   (And_blind _ _ (Suppress_blind _ Literal_dash_blind)
                      (Word_blind alphas c_not_alphas)))
                (ZeroOrMore_Word_blind subject_chars c_not_subject))).
  match goal with |- context [And ?p ?q s] => destruct (And p q s) as [[[n [l subj]] rest]|] end;
    reflexivity.
Qed.

(** What is parsed from a line does not change when such text is put
    after the line. *)
Lemma parseString_tail (s : string) :
  parseString pattern (s +:+ tail) = parseString pattern s.
Proof.
  unfold parseString. rewrite pattern_blind.
  destruct (pattern s) as [[r rest]|]; reflexivity.
Qed.

End Grammar.

(** C10: a line whose first token starts with an alphanumeric
    character always parses as a fact; text after it that starts with a
    character that is neither whitespace nor a subject character is
    dropped without changing the result; and so the subjects can be
    fewer than the tokens that follow the name, as in
    ["n user1 !x user2"]. *)
Theorem parseString_pattern_prefix (line : string) (c : ascii) :
  first_token_char line = Some c →
  in_chars c alphanums = true →
  (∃ r, parseString pattern line = Some r
        ∧ ∀ d junk,
            in_chars d DEFAULT_WHITE_CHARS = false →
            in_chars d subject_chars = false →
            parseString pattern (line +:+ String d junk) = Some r)
  ∧ parseString pattern "n user1 !x user2"
    = Some {| name := "n"; lang := None; subjects := ["user1"] |}.
Proof.
  intros Hc Hin. split; [|vm_compute; reflexivity].
  destruct (Word_matches alphanums line c Hc Hin) as (tok & rest & Hw).
  assert (Hp : ∃ r, parseString pattern line = Some r).
  { destruct (Optional_total (And (Suppress (Literal "-")) (Word alphas))
                rest) as (l & rest1 & Hl).
    destruct (ZeroOrMore_total (Word subject_chars) rest1)
      as (subj & rest2 & Hsubj).
    unfold parseString, pattern.
    rewrite (And_matches _ _ _ _ _ _ _ Hw (And_matches _ _ _ _ _ _ _ Hl Hsubj)).
    eauto. }
  destruct Hp as [r Hr]. exists r. split; [exact Hr|].
  intros d junk Hw' Hs. now rewrite parseString_tail.
Qed.

(** C10 at the line ["fact user! more"]. *)
Lemma parseString_pattern_prefix_witness :
  (∃ r, parseString pattern "fact user! more" = Some r
        ∧ ∀ d junk,
            in_chars d DEFAULT_WHITE_CHARS = false →
            in_chars d subject_chars = false →
            parseString pattern ("fact user! more" +:+ String d junk)
            = Some r)
  ∧ parseString pattern "n user1 !x user2"
    = Some {| name := "n"; lang := None; subjects := ["user1"] |}.
Proof.
  apply (parseString_pattern_prefix "fact user! more" "f");
    vm_compute; reflexivity.
Defined.

(** ** The dispatcher *)

Section Properties.
Context {env handler Permission : Type}.
Local Abbreviation pyval := (pyval handler Permission).
Local Abbreviation Command := (Command handler Permission).
Local Abbreviation state := (@state env handler Permission).
Local Abbreviation event := (@event handler Permission).

Variable casefold : string → string.
Variable get_rule : list string → list string → bool → pyval * list pyval.
Variable run_handler :
  handler → Context → list pyval → env → outcome pyval * env.
Variable handle_ratmama_announcement : handler.
Variable fact_manager_exists : string → string → env → outcome bool * env.
Variable fact_manager_find : string → string → env → outcome Fact * env.
Variable context_reply : Context → string → env → outcome pyval * env.

Local Abbreviation call := (call run_handler).
Local Abbreviation handle_fact :=
  (handle_fact casefold fact_manager_exists fact_manager_find context_reply).
Local Abbreviation select_handler := (select_handler casefold get_rule).
Local Abbreviation dispatch :=
  (dispatch casefold run_handler handle_ratmama_announcement
     fact_manager_exists fact_manager_find context_reply).
Local Abbreviation trigger :=
  (trigger casefold get_rule run_handler handle_ratmama_announcement
     fact_manager_exists fact_manager_find context_reply).

Lemma callable_truthy (v : pyval) : callable v = true → truthy v = true.
Proof. destruct v; simpl; congruence. Qed.

Lemma no_rule_lookup_refl (st st' : state) :
  trace st' = trace st → no_rule_lookup st st'.
Proof. intros H. exists []. rewrite H, app_nil_r. split; [reflexivity|constructor]. Qed.

Lemma no_rule_lookup_step (st st' st'' : state) (ev : event) :
  no_rule_lookup st st' →
  is_get_rule_event ev = false →
  trace st'' = trace st' ++ [ev] →
  no_rule_lookup st st''.
Proof.
  intros (evs & Ht & Hall) Hev Ht'. exists (evs ++ [ev]). split.
  - rewrite Ht', Ht. now rewrite app_assoc.
  - apply Forall_app. split; [exact Hall | repeat constructor; exact Hev].
Qed.

Lemma no_rule_lookup_trans (st st' st'' : state) :
  no_rule_lookup st st' → no_rule_lookup st' st'' → no_rule_lookup st st''.
Proof.
  intros (evs & Ht & Hall) (evs' & Ht' & Hall'). exists (evs ++ evs'). split.
  - rewrite Ht', Ht. now rewrite app_assoc.
  - apply Forall_app. now split.
Qed.

(** C8: when the first rest-of-line entry is the empty string,
    [trigger] returns nothing at once: no call is made (no handler, no
    fact lookup, no reply), and nothing changes but the observation of
    the time spent in [trigger] itself; the miss counter in particular
    is as before. *)
Theorem trigger_empty_message (ctx : Context) (st : state)
    (rest : list string) :
  words_eol ctx = "" :: rest →
  trigger ctx st = (Return PNone, observe_TRIGGER_TIME st)
  ∧ trace (snd (trigger ctx st)) = trace st
  ∧ ext (snd (trigger ctx st)) = ext st
  ∧ TRIGGER_MISS (snd (trigger ctx st)) = TRIGGER_MISS st
  ∧ FACT_TIME (snd (trigger ctx st)) = FACT_TIME st
  ∧ TIME_IN_COMMAND (snd (trigger ctx st)) = TIME_IN_COMMAND st.
Proof.
  intros Hw.
  assert (H : trigger ctx st = (Return PNone, observe_TRIGGER_TIME st)).
  { unfold rat_command.trigger, timed, trigger_body, bind. rewrite Hw.
    reflexivity. }
  rewrite H. repeat split.
Qed.

(** C9: calling a [Command] whose first alias is [a] does what calling
    its underlying handler does, with the same result, returned or
    raised, and then one observation of [TIME_IN_COMMAND] labelled [a]
    on either path. *)
Theorem Command_call_timed (c : Command) (a : string) (al : list string)
    (ctx : Context) (args : list pyval) (st : state) :
  aliases c = a :: al →
  call (PCmd c) ctx args st
  = (fst (call (underlying c) ctx args st),
     observe_TIME_IN_COMMAND a (snd (call (underlying c) ctx args st)))
  ∧ (∀ v, fst (call (underlying c) ctx args st) = Return v →
          fst (call (PCmd c) ctx args st) = Return v)
  ∧ (∀ e, fst (call (underlying c) ctx args st) = Raise e →
          fst (call (PCmd c) ctx args st) = Raise e)
  ∧ TIME_IN_COMMAND (snd (call (PCmd c) ctx args st))
    = TIME_IN_COMMAND (snd (call (underlying c) ctx args st)) ++ [a].
Proof.
  intros Ha.
  assert (H : call (PCmd c) ctx args st
              = (fst (call (underlying c) ctx args st),
                 observe_TIME_IN_COMMAND a
                   (snd (call (underlying c) ctx args st)))).
  { cbn [rat_command.call]. unfold Command__call__, bind. rewrite Ha.
    cbn [first ret]. unfold timed.
    destruct (call (underlying c) ctx args st). reflexivity. }
  rewrite H. cbn [fst snd]. repeat split; auto.
Qed.

(** *** The fact resolver *)

(** [handle_fact] on a line that parses, call by call. *)
Lemma handle_fact_parsed (ctx : Context) (st : state) (line : string)
    (rest : list string) (r : ParseResults) :
  words_eol ctx = line :: rest →
  parseString pattern line = Some r →
  handle_fact ctx st
  = let n := casefold (name r) in
    let l := casefold (default "en" (lang r)) in
    let st1 := log (EvExists n l) st in
    match fact_manager_exists n l (ext st) with
    | (Raise e, e1) =>
        (if is_psycopg2_error e then Return (PBool false) else Raise e,
         observe_FACT_TIME (set_ext e1 st1))
    | (Return false, e1) =>
        (Return (PBool false), observe_FACT_TIME (set_ext e1 st1))
    | (Return true, e1) =>
        let st2 := log (EvFind n l) (set_ext e1 st1) in
        match fact_manager_find n l e1 with
        | (Raise e, e2) =>
            (if is_psycopg2_error e then Return (PBool false) else Raise e,
             observe_FACT_TIME (set_ext e2 st2))
        | (Return f, e2) =>
            let msg :=
              join ", " (subjects r)
                +:+ (match subjects r with [] => "" | _ => ": " end)
                +:+ message f in
            let st3 := log (EvReply ctx msg) (set_ext e2 st2) in
            match context_reply ctx msg e2 with
            | (Raise e, e3) =>
                (if is_psycopg2_error e then Return (PBool false)
                 else Raise e,
                 observe_FACT_TIME (set_ext e3 st3))
            | (Return _, e3) =>
                (Return (PBool true), observe_FACT_TIME (set_ext e3 st3))
            end
        end
    end.
Proof.
  intros Hw Hp.
  unfold rat_command.handle_fact, timed, handle_fact_body, bind at 1.
  rewrite Hw. cbn [first ret]. rewrite Hp.
  unfold try_except_psycopg2, bind, extern, default.
  cbn [ext log].
  destruct (fact_manager_exists _ _ (ext st)) as [[[|]|e] e1]; cbn;
    [ | reflexivity | destruct (is_psycopg2_error e); reflexivity ].
  destruct (fact_manager_find _ _ e1) as [[f|e] e2]; cbn;
    [ | destruct (is_psycopg2_error e); reflexivity ].
  destruct (context_reply ctx _ e2) as [[v|e] e3]; cbn;
    [ reflexivity | destruct (is_psycopg2_error e); reflexivity ].
Qed.

(** [handle_fact] when there is no line or the line does not parse. *)
Lemma handle_fact_no_line (ctx : Context) (st : state) :
  words_eol ctx = [] →
  handle_fact ctx st = (Raise IndexError, observe_FACT_TIME st).
Proof.
  intros Hw. unfold rat_command.handle_fact, timed, handle_fact_body, bind.
  rewrite Hw. reflexivity.
Qed.

Lemma handle_fact_not_parsed (ctx : Context) (st : state) (line : string)
    (rest : list string) :
  words_eol ctx = line :: rest →
  parseString pattern line = None →
  handle_fact ctx st = (Return PNone, observe_FACT_TIME st).
Proof.
  intros Hw Hp. unfold rat_command.handle_fact, timed, handle_fact_body, bind.
  rewrite Hw. cbn [first ret]. rewrite Hp. reflexivity.
Qed.

(** Every run of [handle_fact] is one observation of [FACT_TIME], and
    it leaves the miss counter alone. *)
Lemma handle_fact_metrics (ctx : Context) (st : state) :
  FACT_TIME (snd (handle_fact ctx st)) = S (FACT_TIME st)
  ∧ TRIGGER_MISS (snd (handle_fact ctx st)) = TRIGGER_MISS st
  ∧ no_rule_lookup st (snd (handle_fact ctx st)).
Proof.
  destruct (words_eol ctx) as [|line rest] eqn:Hw.
  { rewrite handle_fact_no_line by exact Hw.
    repeat split. now apply no_rule_lookup_refl. }
  destruct (parseString pattern line) as [r|] eqn:Hp.
  2:{ rewrite (handle_fact_not_parsed ctx st line rest Hw Hp).
      repeat split. now apply no_rule_lookup_refl. }
  rewrite (handle_fact_parsed ctx st line rest r Hw Hp). cbv zeta.
  destruct (fact_manager_exists _ _ (ext st)) as [[[|]|e] e1].
  2,3: repeat split;
       (eexists; split; [cbn; reflexivity | repeat constructor]).
  destruct (fact_manager_find _ _ e1) as [[f|e] e2].
  2: repeat split;
     (eexists; split;
      [cbn; rewrite <- ?app_assoc; reflexivity | repeat constructor]).
  destruct (context_reply ctx _ e2) as [[v|e] e3];
    repeat split;
    (eexists; split;
     [cbn; rewrite <- ?app_assoc; reflexivity | repeat constructor]).
Qed.

(** C5: [handle_fact] never lets a [psycopg2.Error] out; when the
    existence check raises one, or the fetch raises one after the check
    said the fact exists, it returns [False]. *)
Theorem handle_fact_catches_storage_errors (ctx : Context) (st : state) :
  (∀ tag, fst (handle_fact ctx st) ≠ Raise (Psycopg2Error tag))
  ∧ (∀ line rest r tag,
       words_eol ctx = line :: rest →
       parseString pattern line = Some r →
       let n := casefold (name r) in
       let l := casefold (default "en" (lang r)) in
       (∃ e1, fact_manager_exists n l (ext st)
              = (Raise (Psycopg2Error tag), e1))
       ∨ (∃ e1 e2,
            fact_manager_exists n l (ext st) = (Return true, e1)
            ∧ fact_manager_find n l e1 = (Raise (Psycopg2Error tag), e2)) →
       fst (handle_fact ctx st) = Return (PBool false)
       ∧ truthy (PBool false : pyval) = false).
Proof.
  split.
  - intros tag.
    destruct (words_eol ctx) as [|line rest] eqn:Hw.
    { rewrite handle_fact_no_line by exact Hw. discriminate. }
    destruct (parseString pattern line) as [r|] eqn:Hp.
    2:{ rewrite (handle_fact_not_parsed ctx st line rest Hw Hp).
        discriminate. }
    rewrite (handle_fact_parsed ctx st line rest r Hw Hp). cbv zeta.
    destruct (fact_manager_exists _ _ (ext st)) as [[[|]|e] e1].
    2: discriminate.
    2: destruct e; cbn; discriminate.
    destruct (fact_manager_find _ _ e1) as [[f|e] e2].
    2: destruct e; cbn; discriminate.
    destruct (context_reply ctx _ e2) as [[v|e] e3].
    + discriminate.
    + destruct e; cbn; discriminate.
  - intros line rest r tag Hw Hp n l Hraise.
    rewrite (handle_fact_parsed ctx st line rest r Hw Hp). cbv zeta.
    fold n l. split; [|reflexivity].
    destruct Hraise as [[e1 He]|(e1 & e2 & He & Hf)].
    + rewrite He. reflexivity.
    + rewrite He, Hf. reflexivity.
Qed.

(** C6: when the store has the fact under the case-folded name and
    language (["en"] when none was parsed) with message [m],
    [handle_fact] makes the two store calls and then replies with the
    subjects joined by [", "], then [": "] exactly when there is a
    subject, then [m]; it returns [True] when the reply went out. *)
Theorem handle_fact_reply (ctx : Context) (st : state) (line : string)
    (rest : list string) (r : ParseResults) (e1 e2 : env) (f : Fact) :
  words_eol ctx = line :: rest →
  parseString pattern line = Some r →
  let n := casefold (name r) in
  let l := casefold (default "en" (lang r)) in
  fact_manager_exists n l (ext st) = (Return true, e1) →
  fact_manager_find n l e1 = (Return f, e2) →
  let msg :=
    join ", " (subjects r)
      +:+ (if decide (subjects r = []) then "" else ": ")
      +:+ message f in
  trace (snd (handle_fact ctx st))
  = trace st ++ [EvExists n l; EvFind n l; EvReply ctx msg]
  ∧ (∀ v e3, context_reply ctx msg e2 = (Return v, e3) →
             fst (handle_fact ctx st) = Return (PBool true))
  ∧ (subjects r = [] → msg = message f)
  ∧ (subjects r = ["user1"; "user2"] →
     msg = "user1, user2: " +:+ message f).
Proof.
  intros Hw Hp n l He Hf msg.
  assert (Hmsg : msg = join ", " (subjects r)
                       +:+ (match subjects r with [] => "" | _ => ": " end)
                       +:+ message f).
  { unfold msg. destruct (subjects r); reflexivity. }
  rewrite (handle_fact_parsed ctx st line rest r Hw Hp). cbv zeta.
  fold n l. rewrite He, Hf. rewrite <- Hmsg.
  split; [|split; [|split]].
  - destruct (context_reply ctx msg e2) as [[v|e] e3]; cbn;
      now rewrite <- !app_assoc.
  - intros v e3 Hr. now rewrite Hr.
  - intros Hs. unfold msg. rewrite Hs. reflexivity.
  - intros Hs. unfold msg. rewrite Hs. reflexivity.
Qed.

(** *** Calls of handlers *)

(** Calling a value only ever calls handlers. *)
Lemma call_no_rule_lookup :
  ∀ (f : pyval) (ctx : Context) (args : list pyval) (st : state),
    no_rule_lookup st (snd (call f ctx args st)).
Proof.
  fix IH 1. intros f ctx args st.
  destruct f as [| b | z | s | l | l | h | p | c];
    try (apply no_rule_lookup_refl; reflexivity).
  - cbn [rat_command.call]. unfold extern. cbn [ext log].
    destruct (run_handler h ctx args (ext st)) as [r e'].
    exists [EvCall h ctx args]. split; [reflexivity | repeat constructor].
  - destruct c as [u al rp rc rd fn].
    cbn [rat_command.call underlying]. unfold Command__call__, bind.
    cbn [aliases]. destruct al as [|a al].
    + apply no_rule_lookup_refl. reflexivity.
    + cbn [first ret]. unfold timed.
      specialize (IH u ctx args st).
      destruct (call u ctx args st) as [r st'].
      destruct IH as (evs & Ht & Hall). exists evs. split; assumption.
Qed.

(** *** The selection *)

Lemma select_handler_registered (ctx : Context) (st : state)
    (w : string) (ws : list string) (c : pyval) :
  prefixed ctx = true →
  words ctx = w :: ws →
  _registered_commands st !! casefold w = Some c →
  select_handler ctx st = (Return (c, []), st).
Proof.
  intros Hp Hw Hc. unfold rat_command.select_handler, bind.
  rewrite Hp, Hw. cbn [first ret]. now rewrite Hc.
Qed.

Lemma select_handler_unregistered (ctx : Context) (st : state)
    (w : string) (ws : list string) :
  prefixed ctx = true →
  words ctx = w :: ws →
  _registered_commands st !! casefold w = None →
  select_handler ctx st
  = (Return (get_rule (words ctx) (words_eol ctx) false),
     log (EvGetRule (words ctx) (words_eol ctx) false) st).
Proof.
  intros Hp Hw Hc. unfold rat_command.select_handler, bind.
  rewrite Hp. rewrite Hw at 1. cbn [first ret]. now rewrite Hc.
Qed.

Lemma select_handler_prefixless (ctx : Context) (st st1 : state)
    (sel : pyval * list pyval) :
  prefixed ctx = false →
  select_handler ctx st = (Return sel, st1) →
  sel = get_rule (words ctx) (words_eol ctx) true
  ∧ st1 = log (EvGetRule (words ctx) (words_eol ctx) true) st.
Proof.
  intros Hp. unfold rat_command.select_handler, bind. rewrite Hp.
  destruct (truthy (fst (get_rule (words ctx) (words_eol ctx) true))).
  - destruct (words ctx); cbn [first ret raise]; [discriminate|].
    intros H. injection H as <- <-. auto.
  - intros H. injection H as <- <-. auto.
Qed.

(** The selection changes nothing but the record of calls. *)
Lemma select_handler_frame (ctx : Context) (st st1 : state)
    (sel : pyval * list pyval) :
  select_handler ctx st = (Return sel, st1) →
  st1 = st ∨ st1 = log (EvGetRule (words ctx) (words_eol ctx)
                          (negb (prefixed ctx))) st.
Proof.
  intros Hsel. destruct (prefixed ctx) eqn:Hp.
  - revert Hsel. unfold rat_command.select_handler, bind. rewrite Hp.
    destruct (words ctx) as [|w ws]; cbn [first ret raise]; [discriminate|].
    destruct (_registered_commands st !! casefold w);
      intros H; injection H as _ <-; auto.
  - right.
    now destruct (select_handler_prefixless ctx st st1 sel Hp Hsel) as [_ ->].
Qed.

(** With a first word, the selection returns. *)
Lemma select_handler_returns (ctx : Context) (st : state) :
  words ctx ≠ [] →
  ∃ sel st1, select_handler ctx st = (Return sel, st1).
Proof.
  intros Hw. unfold rat_command.select_handler, bind.
  destruct (words ctx) as [|w ws] eqn:Hws; [contradiction|].
  destruct (prefixed ctx).
  - cbn [first ret].
    destruct (_registered_commands st !! casefold w); eauto.
  - destruct (truthy (fst (get_rule (w :: ws) (words_eol ctx) true)));
      cbn [first ret]; eauto.
Qed.

(** [trigger] on a line that is not empty: the selection, then the
    dispatch. *)
Lemma trigger_selected (ctx : Context) (st st1 : state) (line : string)
    (rest : list string) (sel : pyval * list pyval) :
  words_eol ctx = line :: rest →
  line ≠ "" →
  select_handler ctx st = (Return sel, st1) →
  trigger ctx st
  = timed observe_TRIGGER_TIME (dispatch ctx (fst sel) (snd sel)) st1.
Proof.
  intros Hw Hne Hsel.
  unfold rat_command.trigger, timed, trigger_body, bind at 1.
  rewrite Hw. cbn [first ret].
  destruct (String.eqb line "") eqn:E; [apply String.eqb_eq in E; contradiction|].
  unfold bind. now rewrite Hsel.
Qed.

(** The dispatch of a selected handler, by cases. *)
Lemma dispatch_announcement (ctx : Context) (st : state) (line : string)
    (rest : list string) (cf : pyval) (ea : list pyval) :
  words_eol ctx = line :: rest →
  String.prefix "Incoming Client:" line = true →
  dispatch ctx cf ea st
  = call (PFunc handle_ratmama_announcement) ctx ea st.
Proof.
  intros Hw Ha. unfold rat_command.dispatch, bind.
  rewrite Hw. cbn [first ret]. rewrite Ha. reflexivity.
Qed.

Lemma dispatch_handler (ctx : Context) (st : state) (line : string)
    (rest : list string) (cf : pyval) (ea : list pyval) :
  words_eol ctx = line :: rest →
  String.prefix "Incoming Client:" line = false →
  truthy cf = true →
  dispatch ctx cf ea st = call cf ctx ea st.
Proof.
  intros Hw Ha Ht. unfold rat_command.dispatch, bind.
  rewrite Hw. cbn [first ret]. rewrite Ha, Ht. reflexivity.
Qed.

Lemma dispatch_fallback (ctx : Context) (st : state) (line : string)
    (rest : list string) (cf : pyval) (ea : list pyval) :
  words_eol ctx = line :: rest →
  String.prefix "Incoming Client:" line = false →
  truthy cf = false →
  dispatch ctx cf ea st
  = bind (if prefixed ctx then handle_fact ctx else ret (PBool false))
      (fun result =>
         if negb (truthy result)
         then fun st' => (Return PNone, inc_TRIGGER_MISS st')
         else ret PNone) st.
Proof.
  intros Hw Ha Ht. unfold rat_command.dispatch, bind at 1.
  rewrite Hw. cbn [first ret]. rewrite Ha, Ht. reflexivity.
Qed.

Lemma dispatch_no_rule_lookup (ctx : Context) (st : state) (cf : pyval)
    (ea : list pyval) :
  no_rule_lookup st (snd (dispatch ctx cf ea st)).
Proof.
  destruct (words_eol ctx) as [|line rest] eqn:Hw.
  { unfold rat_command.dispatch, bind. rewrite Hw.
    apply no_rule_lookup_refl. reflexivity. }
  destruct (String.prefix "Incoming Client:" line) eqn:Ha.
  { rewrite (dispatch_announcement ctx st line rest cf ea Hw Ha).
    apply call_no_rule_lookup. }
  destruct (truthy cf) eqn:Ht.
  { rewrite (dispatch_handler ctx st line rest cf ea Hw Ha Ht).
    apply call_no_rule_lookup. }
  rewrite (dispatch_fallback ctx st line rest cf ea Hw Ha Ht).
  unfold bind. destruct (prefixed ctx).
  - destruct (handle_fact_metrics ctx st) as (_ & _ & Hn).
    destruct (handle_fact ctx st) as [[v|e] st']; [|exact Hn].
    destruct (negb (truthy v)); exact Hn.
  - apply no_rule_lookup_refl. reflexivity.
Qed.

(** *** The precedence chain *)

(** C1: on a line that passed the empty-message guard, with the
    prefix and a first word whose case-folded form is registered, the
    selection is
    the registered value with no extra arguments, made without calling
    the rule resolver, and the rest of [trigger] does not call it
    either; a callable registered value is then the handler that is
    called, unless the line is an announcement. *)
Theorem registered_command_selected (ctx : Context) (st : state)
    (line : string) (rest : list string) (w : string) (ws : list string)
    (c : pyval) :
  words_eol ctx = line :: rest →
  line ≠ "" →
  prefixed ctx = true →
  words ctx = w :: ws →
  _registered_commands st !! casefold w = Some c →
  select_handler ctx st = (Return (c, []), st)
  ∧ trigger ctx st = timed observe_TRIGGER_TIME (dispatch ctx c []) st
  ∧ no_rule_lookup st (snd (trigger ctx st))
  ∧ (callable c = true →
     trigger ctx st
     = timed observe_TRIGGER_TIME
         (call (if String.prefix "Incoming Client:" line
                then PFunc handle_ratmama_announcement
                else c) ctx []) st).
Proof.
  intros Hw Hne Hp Hws Hc.
  pose proof (select_handler_registered ctx st w ws c Hp Hws Hc) as Hsel.
  pose proof (trigger_selected ctx st st line rest (c, []) Hw Hne Hsel) as Ht.
  cbn [fst snd] in Ht.
  split; [exact Hsel|]. split; [exact Ht|]. split.
  - rewrite Ht. unfold timed.
    pose proof (dispatch_no_rule_lookup ctx st c []) as Hn.
    destruct (dispatch ctx c [] st) as [r st']. exact Hn.
  - intros Hcall. rewrite Ht. unfold timed.
    destruct (String.prefix "Incoming Client:" line) eqn:Ha.
    + now rewrite (dispatch_announcement ctx st line rest c [] Hw Ha).
    + now rewrite (dispatch_handler ctx st line rest c [] Hw Ha
                     (callable_truthy c Hcall)).
Qed.

(** C2: on a line that starts with ["Incoming Client:"], whatever the
    selection gave, the handler that [trigger] calls is the
    announcement handler, and it is the only call made after the
    selection; its result is the result of [trigger]. *)
Theorem announcement_overrides (ctx : Context) (st : state)
    (line : string) (rest : list string) :
  words_eol ctx = line :: rest →
  String.prefix "Incoming Client:" line = true →
  Context_parallel ctx →
  ∃ sel st1,
    select_handler ctx st = (Return sel, st1)
    ∧ trigger ctx st
      = timed observe_TRIGGER_TIME
          (extern (EvCall handle_ratmama_announcement ctx (snd sel))
             (run_handler handle_ratmama_announcement ctx (snd sel))) st1
    ∧ trace (snd (trigger ctx st))
      = trace st1 ++ [EvCall handle_ratmama_announcement ctx (snd sel)]
    ∧ fst (trigger ctx st)
      = fst (run_handler handle_ratmama_announcement ctx (snd sel) (ext st)).
Proof.
  intros Hw Ha Hpar.
  assert (Hne : line ≠ "") by (intros ->; discriminate).
  assert (Hwords : words ctx ≠ []).
  { intros Hnil. unfold Context_parallel in Hpar.
    rewrite Hnil, Hw in Hpar. discriminate. }
  destruct (select_handler_returns ctx st Hwords) as (sel & st1 & Hsel).
  exists sel, st1. split; [exact Hsel|].
  pose proof (trigger_selected ctx st st1 line rest sel Hw Hne Hsel) as Ht.
  unfold timed in Ht.
  rewrite (dispatch_announcement ctx st1 line rest _ _ Hw Ha) in Ht.
  cbn [rat_command.call] in Ht.
  assert (Hext : ext st1 = ext st).
  { destruct (select_handler_frame ctx st st1 sel Hsel) as [->| ->];
      reflexivity. }
  split; [exact Ht|]. rewrite Ht. unfold timed, extern. cbn [ext log].
  rewrite Hext.
  destruct (run_handler handle_ratmama_announcement ctx (snd sel) (ext st))
    as [r e']. split; reflexivity.
Qed.

(** C7: when the line is not empty, is not an announcement, and the
    selection gave no handler, [handle_fact] runs exactly when the line
    was prefixed (one observation of [FACT_TIME], or none); without the
    prefix nothing is called after the rule resolver and the miss is
    counted. *)
Theorem fact_fallback_iff_prefixed (ctx : Context) (st st1 : state)
    (line : string) (rest : list string) (sel : pyval * list pyval) :
  words_eol ctx = line :: rest →
  line ≠ "" →
  String.prefix "Incoming Client:" line = false →
  select_handler ctx st = (Return sel, st1) →
  truthy (fst sel) = false →
  FACT_TIME (snd (trigger ctx st))
  = FACT_TIME st + (if prefixed ctx then 1 else 0)
  ∧ (prefixed ctx = true →
     trigger ctx st
     = timed observe_TRIGGER_TIME
         (bind (handle_fact ctx)
            (fun result =>
               if negb (truthy result)
               then fun st' => (Return PNone, inc_TRIGGER_MISS st')
               else ret PNone)) st1)
  ∧ (prefixed ctx = false →
     trigger ctx st
     = (Return PNone,
        observe_TRIGGER_TIME
          (inc_TRIGGER_MISS
             (log (EvGetRule (words ctx) (words_eol ctx) true) st)))
     ∧ TRIGGER_MISS (snd (trigger ctx st)) = S (TRIGGER_MISS st)
     ∧ trace (snd (trigger ctx st))
       = trace st ++ [EvGetRule (words ctx) (words_eol ctx) true]
     ∧ ext (snd (trigger ctx st)) = ext st).
Proof.
  intros Hw Hne Ha Hsel Hfalsy.
  pose proof (trigger_selected ctx st st1 line rest sel Hw Hne Hsel) as Ht.
  unfold timed in Ht.
  rewrite (dispatch_fallback ctx st1 line rest _ _ Hw Ha Hfalsy) in Ht.
  assert (Hft : FACT_TIME st1 = FACT_TIME st).
  { destruct (select_handler_frame ctx st st1 sel Hsel) as [->| ->];
      reflexivity. }
  split; [|split].
  - rewrite Ht. unfold timed, bind. destruct (prefixed ctx).
    + destruct (handle_fact_metrics ctx st1) as (Hf & _ & _).
      destruct (handle_fact ctx st1) as [[v|e] st2]; cbn [snd] in *.
      * destruct (negb (truthy v)); cbn; lia.
      * cbn. lia.
    + cbn. lia.
  - intros Hp. rewrite Ht, Hp. reflexivity.
  - intros Hp. rewrite Hp in Ht.
    destruct (select_handler_prefixless ctx st st1 sel Hp Hsel) as [_ ->].
    rewrite Ht. repeat split.
Qed.

End Properties.

(** ** The theorems at concrete lines *)

(** C1 at the prefixed line ["Ping"] with ["ping"] registered. *)
Lemma registered_command_selected_witness :
  let st := Demo.state0 0 {[ "ping" := PFunc 1 ]} in
  let ctx := Demo.line_context true ["Ping"] ["Ping"] in
  select_handler Demo.casefold Demo.get_rule ctx st
  = (Return (PFunc 1, []), st)
  ∧ no_rule_lookup st (snd (Demo.trigger ctx st))
  ∧ Demo.trigger ctx st
    = timed observe_TRIGGER_TIME
        (call Demo.run_handler (PFunc 1) ctx []) st.
Proof.
  intros st ctx.
  destruct (registered_command_selected Demo.casefold Demo.get_rule
              Demo.run_handler Demo.handle_ratmama_announcement
              Demo.fact_manager_exists Demo.fact_manager_find
              Demo.context_reply ctx st "Ping" [] "Ping" [] (PFunc 1))
    as (Hsel & _ & Hno & Hcall).
  - reflexivity.
  - discriminate.
  - reflexivity.
  - reflexivity.
  - vm_compute. reflexivity.
  - split; [exact Hsel|]. split; [exact Hno|]. apply Hcall. reflexivity.
Defined.

(** C2 at an announcement line that a prefixless rule matches too:
    the rule's handler is dropped, its extra arguments are not. *)
Lemma announcement_overrides_witness :
  let st := Demo.state0 0 ∅ in
  let ctx :=
    Demo.line_context false ["Incoming"; "Client:"; "Bob"]
      ["Incoming Client: Bob"; "Client: Bob"; "Bob"] in
  ∃ sel st1,
    select_handler Demo.casefold Demo.get_rule ctx st = (Return sel, st1)
    ∧ Demo.trigger ctx st
      = timed observe_TRIGGER_TIME
          (extern (EvCall Demo.handle_ratmama_announcement ctx (snd sel))
             (Demo.run_handler Demo.handle_ratmama_announcement ctx
                (snd sel))) st1
    ∧ trace (snd (Demo.trigger ctx st))
      = trace st1
          ++ [EvCall Demo.handle_ratmama_announcement ctx (snd sel)]
    ∧ fst (Demo.trigger ctx st)
      = fst (Demo.run_handler Demo.handle_ratmama_announcement ctx
               (snd sel) (ext st)).
Proof.
  intros st ctx.
  apply (announcement_overrides Demo.casefold Demo.get_rule
           Demo.run_handler Demo.handle_ratmama_announcement
           Demo.fact_manager_exists Demo.fact_manager_find
           Demo.context_reply ctx st "Incoming Client: Bob"
           ["Client: Bob"; "Bob"]).
  - reflexivity.
  - reflexivity.
  - reflexivity.
Defined.

(** C5 with a store whose existence check fails, and with one whose
    fetch fails. *)
Lemma handle_fact_catches_storage_errors_witness :
  let ctx := Demo.line_context true ["n"] ["n"] in
  fst (Demo.handle_fact ctx (Demo.state0 1 ∅)) = Return (PBool false)
  ∧ fst (Demo.handle_fact ctx (Demo.state0 2 ∅)) = Return (PBool false).
Proof.
  intros ctx. split.
  - apply (proj2 (handle_fact_catches_storage_errors Demo.casefold
                    Demo.fact_manager_exists Demo.fact_manager_find
                    Demo.context_reply ctx (Demo.state0 1 ∅))
             "n" [] {| name := "n"; lang := None; subjects := [] |} 0).
    + reflexivity.
    + reflexivity.
    + left. exists 1. reflexivity.
  - apply (proj2 (handle_fact_catches_storage_errors Demo.casefold
                    Demo.fact_manager_exists Demo.fact_manager_find
                    Demo.context_reply ctx (Demo.state0 2 ∅))
             "n" [] {| name := "n"; lang := None; subjects := [] |} 1).
    + reflexivity.
    + reflexivity.
    + right. exists 2, 2. split; reflexivity.
Defined.

(** C6 at the prefixed line ["N user1 user2"], and at ["n"]. *)
Lemma handle_fact_reply_witness :
  let st := Demo.state0 0 ∅ in
  let ctx :=
    Demo.line_context true ["N"; "user1"; "user2"]
      ["N user1 user2"; "user1 user2"; "user2"] in
  trace (snd (Demo.handle_fact ctx st))
  = [EvExists "n" "en"; EvFind "n" "en"; EvReply ctx "user1, user2: m"]
  ∧ fst (Demo.handle_fact ctx st) = Return (PBool true).
Proof.
  intros st ctx.
  destruct (handle_fact_reply Demo.casefold Demo.fact_manager_exists
              Demo.fact_manager_find Demo.context_reply ctx st
              "N user1 user2" ["user1 user2"; "user2"]
              {| name := "N"; lang := None;
                 subjects := ["user1"; "user2"] |}
              0 0 {| message := "m" |})
    as (Ht & Hr & _ & _).
  - reflexivity.
  - reflexivity.
  - reflexivity.
  - reflexivity.
  - split; [exact Ht|]. apply (Hr PNone 0). reflexivity.
Defined.

(** C7 at the line ["hello"] without the prefix. *)
Lemma fact_fallback_iff_prefixed_witness :
  let st := Demo.state0 0 ∅ in
  let ctx := Demo.line_context false ["hello"] ["hello"] in
  FACT_TIME (snd (Demo.trigger ctx st)) = 0
  ∧ TRIGGER_MISS (snd (Demo.trigger ctx st)) = 1
  ∧ trace (snd (Demo.trigger ctx st))
    = [EvGetRule ["hello"] ["hello"] true].
Proof.
  intros st ctx.
  destruct (fact_fallback_iff_prefixed Demo.casefold Demo.get_rule
              Demo.run_handler Demo.handle_ratmama_announcement
              Demo.fact_manager_exists Demo.fact_manager_find
              Demo.context_reply ctx st
              (log (EvGetRule ["hello"] ["hello"] true) st)
              "hello" [] (PNone, []))
    as (Hf & _ & Hn).
  - reflexivity.
  - discriminate.
  - reflexivity.
  - reflexivity.
  - reflexivity.
  - destruct (Hn eq_refl) as (_ & Hm & Ht & _).
    split; [exact Hf|]. split; [exact Hm | exact Ht].
Defined.

(** C8 at the prefixed empty line. *)
Lemma trigger_empty_message_witness :
  let st := Demo.state0 0 {[ "ping" := PFunc 1 ]} in
  let ctx := Demo.line_context true [""] [""] in
  Demo.trigger ctx st = (Return PNone, observe_TRIGGER_TIME st)
  ∧ trace (snd (Demo.trigger ctx st)) = trace st
  ∧ ext (snd (Demo.trigger ctx st)) = ext st
  ∧ TRIGGER_MISS (snd (Demo.trigger ctx st)) = TRIGGER_MISS st
  ∧ FACT_TIME (snd (Demo.trigger ctx st)) = FACT_TIME st
  ∧ TIME_IN_COMMAND (snd (Demo.trigger ctx st)) = TIME_IN_COMMAND st.
Proof.
  intros st ctx.
  apply (trigger_empty_message Demo.casefold Demo.get_rule
           Demo.run_handler Demo.handle_ratmama_announcement
           Demo.fact_manager_exists Demo.fact_manager_find
           Demo.context_reply ctx st []).
  reflexivity.
Defined.

(** C9 at a command whose handler raises: the error comes out as it
    is and the time is observed under ["boom"]. *)
Lemma Command_call_timed_witness :
  let c : Command nat unit :=
    mkCommand (PFunc 3) ["boom"; "b"] None false false PNone in
  let ctx := Demo.line_context true ["boom"] ["boom"] in
  let st := Demo.state0 0 ∅ in
  fst (call Demo.run_handler (PCmd c) ctx [] st) = Raise (OtherException 7)
  ∧ TIME_IN_COMMAND (snd (call Demo.run_handler (PCmd c) ctx [] st))
    = ["boom"].
Proof.
  intros c ctx st.
  destruct (Command_call_timed Demo.run_handler c "boom" ["b"] ctx [] st
              eq_refl) as (_ & _ & He & Ht).
  split.
  - apply He. reflexivity.
  - exact Ht.
Defined.

(** ** More on registration *)

Section RegistrationMore.
Context {env handler Permission : Type}.
Local Abbreviation pyval := (pyval handler Permission).
Local Abbreviation state := (@state env handler Permission).
Variable casefold : string → string.

(** The loop returns nothing or raises the collision error. *)
Lemma _register_loop_outcome (func_ : pyval) (names : list string)
    (st : state) :
  fst (_register_loop func_ names st) = Return tt
  ∨ ∃ a, a ∈ names
         ∧ fst (_register_loop func_ names st)
           = Raise (NameCollisionException a).
Proof.
  revert st. induction names as [|k names IH]; intros st.
  - left. reflexivity.
  - simpl. destruct (_registered_commands st !! k).
    + right. exists k. split; [apply list_elem_of_here | reflexivity].
    + destruct (IH (set_registry (<[k:=func_]> (_registered_commands st)) st))
        as [H|(a & Ha & H)].
      * now left.
      * right. exists a. split; [now apply list_elem_of_further | exact H].
Qed.

(** The loop only writes keys that were free. *)
Lemma _register_loop_keeps (func_ : pyval) (names : list string)
    (st : state) (k : string) (v : pyval) :
  _registered_commands st !! k = Some v →
  _registered_commands (snd (_register_loop func_ names st)) !! k = Some v.
Proof.
  revert st. induction names as [|a names IH]; intros st Hk.
  - exact Hk.
  - simpl. destruct (_registered_commands st !! a) eqn:Ha; [exact Hk|].
    apply IH. simpl. rewrite lookup_insert_ne; [exact Hk|].
    intros ->. rewrite Hk in Ha. discriminate.
Qed.

(** [_register] with a callable is its loop. *)
Lemma _register_callable (func_ : pyval) (names : string + list string)
    (st : state) :
  callable func_ = true →
  _register casefold func_ names st
  = match _register_loop func_ (casefold <$> names_list names) st with
    | (Return _, st') => (Return true, st')
    | (Raise e, st') => (Raise e, st')
    end.
Proof.
  intros Hc. unfold _register, names_list.
  destruct func_; try discriminate; simpl; unfold bind;
    destruct (_register_loop _ _ st) as [[[]|e] st']; reflexivity.
Qed.

Lemma _register_not_callable (func_ : pyval)
    (names : string + list string) (st : state) :
  callable func_ = false →
  _register casefold func_ names st = (Return false, st).
Proof.
  intros Hc. unfold _register. destruct func_; try discriminate; reflexivity.
Qed.

(** A list with a repeated element splits at the first repetition. *)
Lemma first_duplicate (l : list string) :
  ¬ NoDup l →
  ∃ pre a post, l = pre ++ a :: post ∧ NoDup pre ∧ a ∈ pre.
Proof.
  induction l as [|x l IH] using rev_ind; intros Hnd.
  - destruct Hnd. constructor.
  - destruct (decide (NoDup l)) as [Hl|Hl].
    + exists l, x, []. split; [reflexivity|]. split; [exact Hl|].
      destruct (decide (x ∈ l)) as [Hin|Hnin]; [exact Hin|].
      destruct Hnd. apply NoDup_app. split; [exact Hl|]. split.
      * intros y Hy Hy'. apply list_elem_of_singleton in Hy'. now subst.
      * apply NoDup_singleton.
    + destruct (IH Hl) as (pre & a & post & -> & Hpre & Ha).
      exists pre, a, (post ++ [x]). split; [|now split].
      now rewrite <- app_assoc.
Qed.

(** X1: with a callable and case-folded names that are distinct and
    not yet registered, [_register] returns [True]; afterwards every
    case-folded name looks up to the callable and every other key is as
    before. *)
Theorem register_fresh_names (func_ : pyval)
    (names : string + list string) (st : state) :
  callable func_ = true →
  NoDup (casefold <$> names_list names) →
  (∀ k, k ∈ casefold <$> names_list names →
        _registered_commands st !! k = None) →
  fst (_register casefold func_ names st) = Return true
  ∧ (∀ k, k ∈ casefold <$> names_list names →
          _registered_commands (snd (_register casefold func_ names st)) !! k
          = Some func_)
  ∧ (∀ k, k ∉ casefold <$> names_list names →
          _registered_commands (snd (_register casefold func_ names st)) !! k
          = _registered_commands st !! k).
Proof.
  intros Hc Hnd Hfree.
  rewrite (_register_callable func_ names st Hc).
  rewrite (_register_loop_fresh func_ _ st Hnd Hfree). cbn [fst snd].
  split; [reflexivity|]. split.
  - intros k Hk. now apply register_all_lookup_in.
  - intros k Hk. now apply register_all_lookup_other.
Qed.

(** X2: [_register] returns [False] exactly when the handler is not
    callable, and then the registry is untouched, colliding names or
    not. *)
Theorem register_false_iff_not_callable (func_ : pyval)
    (names : string + list string) (st : state) :
  (fst (_register casefold func_ names st) = Return false
   ↔ callable func_ = false)
  ∧ (callable func_ = false →
     snd (_register casefold func_ names st) = st).
Proof.
  split; [split|].
  - intros H. destruct (callable func_) eqn:Hc; [|reflexivity].
    rewrite (_register_callable func_ names st Hc) in H.
    destruct (_register_loop func_ (casefold <$> names_list names) st)
      as [[[]|e] st']; discriminate.
  - intros Hc. now rewrite (_register_not_callable func_ names st Hc).
  - intros Hc. now rewrite (_register_not_callable func_ names st Hc).
Qed.

(** X3: whatever the outcome of a call of [_register], an alias that
    was registered before it still maps to the same value after it:
    registration never overwrites and never removes. *)
Theorem register_never_overwrites (func_ : pyval)
    (names : string + list string) (st : state) (k : string) (v : pyval) :
  _registered_commands st !! k = Some v →
  _registered_commands (snd (_register casefold func_ names st)) !! k
  = Some v.
Proof.
  intros Hk. destruct (callable func_) eqn:Hc.
  - rewrite (_register_callable func_ names st Hc).
    pose proof (_register_loop_keeps func_ (casefold <$> names_list names)
                  st k v Hk) as H.
    destruct (_register_loop func_ (casefold <$> names_list names) st)
      as [[[]|e] st']; exact H.
  - now rewrite (_register_not_callable func_ names st Hc).
Qed.

(** X4: a registry that holds only callables still does after any
    call of [_register], whatever the handler given and whatever the
    outcome. *)
Theorem register_keeps_callables (func_ : pyval)
    (names : string + list string) (st : state) :
  map_Forall (fun _ v => callable v = true) (_registered_commands st) →
  map_Forall (fun _ v => callable v = true)
    (_registered_commands (snd (_register casefold func_ names st))).
Proof.
  intros Hall. destruct (callable func_) eqn:Hc.
  - rewrite (_register_callable func_ names st Hc).
    pose proof (_register_loop_callable func_
                  (casefold <$> names_list names) st Hc Hall) as H.
    destruct (_register_loop func_ (casefold <$> names_list names) st)
      as [[[]|e] st']; exact H.
  - now rewrite (_register_not_callable func_ names st Hc).
Qed.

(** X5: two names of one call that case-fold to the same alias
    collide with each other: with a callable and no name registered
    before, the call raises the collision error at the first name that
    repeats an earlier one; the names before it, which are distinct and
    include the repeated alias, are the ones that stay registered to
    the callable. *)
Theorem register_duplicate_in_call (func_ : pyval) (names : list string)
    (st : state) :
  callable func_ = true →
  (∀ k, k ∈ casefold <$> names → _registered_commands st !! k = None) →
  ¬ NoDup (casefold <$> names) →
  ∃ pre a post,
    casefold <$> names = pre ++ a :: post
    ∧ NoDup pre
    ∧ a ∈ pre
    ∧ _register casefold func_ (inr names) st
      = (Raise (NameCollisionException a),
         set_registry (register_all func_ pre (_registered_commands st)) st)
    ∧ _registered_commands (snd (_register casefold func_ (inr names) st))
        !! a = Some func_
    ∧ (∀ k, k ∉ pre →
         _registered_commands (snd (_register casefold func_ (inr names) st))
           !! k = _registered_commands st !! k).
Proof.
  intros Hc Hfree Hdup.
  destruct (first_duplicate _ Hdup) as (pre & a & post & Heq & Hnd & Ha).
  exists pre, a, post.
  assert (Hfree' : ∀ k, k ∈ pre → _registered_commands st !! k = None).
  { intros k Hk. apply Hfree. rewrite Heq. apply elem_of_app. now left. }
  assert (Hr : _register casefold func_ (inr names) st
               = (Raise (NameCollisionException a),
                  set_registry
                    (register_all func_ pre (_registered_commands st)) st)).
  { rewrite (_register_callable func_ (inr names) st Hc).
    cbn [names_list]. rewrite Heq.
    now rewrite (_register_loop_collision func_ pre a post st Hnd Hfree'
                   (or_intror Ha)). }
  split; [exact Heq|]. split; [exact Hnd|]. split; [exact Ha|].
  split; [exact Hr|]. rewrite Hr. cbn [snd _registered_commands set_registry].
  split.
  - now apply register_all_lookup_in.
  - intros k Hk. now apply register_all_lookup_other.
Qed.

End RegistrationMore.

(** X1 at the call [_register(f, ["Ping", "PONG"])] on an empty
    registry. *)
Lemma register_fresh_names_witness :
  let st := Demo.state0 0 ∅ in
  let r := _register Demo.casefold (PFunc 1) (inr ["Ping"; "PONG"]) st in
  fst r = Return true
  ∧ _registered_commands (snd r) !! "ping" = Some (PFunc 1)
  ∧ _registered_commands (snd r) !! "pong" = Some (PFunc 1)
  ∧ _registered_commands (snd r) !! "Ping" = None.
Proof.
  intros st r.
  destruct (register_fresh_names Demo.casefold (PFunc 1)
              (inr ["Ping"; "PONG"]) st) as (Hr & Hin & Hout).
  - reflexivity.
  - apply (bool_decide_unpack _). vm_compute. exact I.
  - intros k Hk. reflexivity.
  - split; [exact Hr|]. split; [|split].
    + apply Hin. apply (bool_decide_unpack _). vm_compute. exact I.
    + apply Hin. apply (bool_decide_unpack _). vm_compute. exact I.
    + rewrite Hout; [reflexivity|].
      apply (bool_decide_unpack _). vm_compute. exact I.
Defined.

(** X2 at a call with [None] as handler and a registered name. *)
Lemma register_false_iff_not_callable_witness :
  let st := Demo.state0 0 {[ "b" := PFunc 1 ]} in
  let r := _register Demo.casefold (PNone : Demo.value) (inr ["A"; "b"]) st in
  fst r = Return false ∧ snd r = st.
Proof.
  intros st r.
  destruct (register_false_iff_not_callable Demo.casefold
              (PNone : Demo.value) (inr ["A"; "b"]) st) as [[_ Hf] Hs].
  split; [apply Hf | apply Hs]; reflexivity.
Defined.

(** X3 at a colliding call: ["b"] keeps its handler. *)
Lemma register_never_overwrites_witness :
  let st := Demo.state0 0 {[ "b" := PFunc 1 ]} in
  _registered_commands
    (snd (_register Demo.casefold (PFunc 0) (inr ["A"; "b"]) st)) !! "b"
  = Some (PFunc 1).
Proof.
  intros st.
  apply (register_never_overwrites Demo.casefold (PFunc 0)
           (inr ["A"; "b"]) st "b" (PFunc 1)).
  vm_compute. reflexivity.
Defined.

(** X4 at that call. *)
Lemma register_keeps_callables_witness :
  let st := Demo.state0 0 {[ "b" := PFunc 1 ]} in
  map_Forall (fun _ v => callable v = true)
    (_registered_commands
       (snd (_register Demo.casefold (PNone : Demo.value)
               (inr ["A"; "b"]) st))).
Proof.
  intros st.
  apply (register_keeps_callables Demo.casefold PNone (inr ["A"; "b"]) st).
  apply map_Forall_singleton. reflexivity.
Defined.

(** X5 at the call [_register(f, ["x", "Foo", "foo"])]: the error
    names ["foo"], not the first name, and ["x"] and ["foo"] stay
    registered. *)
Lemma register_duplicate_in_call_witness :
  let st := Demo.state0 0 ∅ in
  let r := _register Demo.casefold (PFunc 1) (inr ["x"; "Foo"; "foo"]) st in
  ∃ pre a post,
    Demo.casefold <$> ["x"; "Foo"; "foo"] = pre ++ a :: post
    ∧ NoDup pre
    ∧ a ∈ pre
    ∧ r = (Raise (NameCollisionException a),
           set_registry
             (register_all (PFunc 1) pre (_registered_commands st)) st)
    ∧ _registered_commands (snd r) !! a = Some (PFunc 1)
    ∧ (∀ k, k ∉ pre →
         _registered_commands (snd r) !! k = _registered_commands st !! k).
Proof.
  intros st r.
  apply (register_duplicate_in_call Demo.casefold (PFunc 1)
           ["x"; "Foo"; "foo"] st).
  - reflexivity.
  - intros k Hk. reflexivity.
  - vm_compute. intros H.
    apply NoDup_cons in H as [_ H]. apply NoDup_cons in H as [H _].
    apply H. apply list_elem_of_here.
Defined.

(** ** More on the construction and the decorator *)

Section CommandMore.
Context {env handler Permission : Type}.
Local Abbreviation pyval := (pyval handler Permission).
Local Abbreviation state := (@state env handler Permission).
Variable casefold : string → string.

Lemma validate_members_str_inv (l : list pyval) :
  validate_members instance_of_str l = None →
  ∃ strs : list string, l = PStr <$> strs.
Proof.
  induction l as [|v l IH]; intros H.
  - exists []. reflexivity.
  - cbn [validate_members] in H. destruct v; try discriminate.
    cbn [instance_of_str] in H. destruct (IH H) as [strs ->].
    exists (s :: strs). reflexivity.
Qed.

(** X6: [Command(...)] is constructed exactly when the handler is
    callable, the aliases are a non-empty tuple of strings, the
    permission is [None] or a [Permission], and the two flags are
    booleans; a list of aliases, a non-string alias or a non-boolean
    flag is refused. *)
Theorem Command_init_succeeds_iff (u a p rc rd fn : pyval) :
  (∃ c, Command_init u a p rc rd fn = inr c)
  ↔ callable u = true
    ∧ (∃ l : list string, l ≠ [] ∧ a = PTuple (PStr <$> l))
    ∧ (∃ q, p = permission_value q)
    ∧ (∃ b, rc = PBool b)
    ∧ (∃ b, rd = PBool b).
Proof.
  split.
  - intros [c H]. unfold Command_init, is_callable in H.
    destruct (callable u); [|discriminate].
    destruct (aliases_validator a) eqn:Ha; [discriminate|].
    destruct (optional instance_of_Permission p) eqn:Hp; [discriminate|].
    destruct (instance_of_bool rc) eqn:Hrc; [discriminate|].
    destruct (instance_of_bool rd) eqn:Hrd; [discriminate|].
    split; [reflexivity|]. split; [|split; [|split]].
    + unfold aliases_validator, and_, deep_iterable in Ha.
      destruct a as [| | | | l | | | |]; try discriminate.
      cbn [instance_of_tuple] in Ha.
      destruct (validate_members instance_of_str l) eqn:Hm; [discriminate|].
      destruct (validate_members_str_inv l Hm) as [strs ->].
      exists strs. split; [|reflexivity].
      intros ->. discriminate.
    + destruct p; try discriminate.
      * now exists None.
      * now exists (Some p).
    + destruct rc; try discriminate. eauto.
    + destruct rd; try discriminate. eauto.
  - intros (Hc & (l & Hl & ->) & (q & ->) & (b & ->) & (b' & ->)).
    rewrite Command_init_typed, Hc.
    destruct l; [contradiction|]. eauto.
Qed.

(** X7: the error of a refused construction is that of the first
    validator that fails: [NotCallableError] for the handler, then
    [ValueError] for the empty tuple, and [TypeError] for every other
    fault. *)
Theorem Command_init_error (u a p rc rd fn : pyval) (e : exn) :
  Command_init u a p rc rd fn = inl e →
  e = if callable u
      then match a with PTuple [] => ValueError | _ => TypeError end
      else NotCallableError.
Proof.
  unfold Command_init, is_callable.
  destruct (callable u); [|intros H; now injection H as <-].
  destruct (aliases_validator a) eqn:Ha.
  - intros H. injection H as <-.
    unfold aliases_validator, and_, deep_iterable in Ha.
    destruct a as [| | | | l | | | |];
      try (cbn in Ha; now injection Ha as <-).
    cbn [instance_of_tuple] in Ha.
    destruct l as [|v l].
    + cbn in Ha. now injection Ha as <-.
    + destruct (validate_members instance_of_str (v :: l)) eqn:Hm.
      * injection Ha as <-. clear -Hm.
        revert Hm. generalize (v :: l). intros l'.
        induction l' as [|w l' IH]; [discriminate|].
        cbn [validate_members]. destruct w; cbn [instance_of_str];
          try (intros H; now injection H as <-).
        exact IH.
      * discriminate.
  - assert (Ht : match a with PTuple [] => False | _ => True end).
    { unfold aliases_validator, and_, deep_iterable in Ha.
      destruct a as [| | | | l | | | |]; try exact I.
      destruct l; [|exact I]. discriminate. }
    assert (Hk : match a with PTuple [] => ValueError | _ => TypeError end
                 = TypeError).
    { destruct a as [| | | | l | | | |]; try reflexivity.
      destruct l; [contradiction | reflexivity]. }
    rewrite Hk.
    destruct (optional instance_of_Permission p) eqn:Hp.
    { intros H. injection H as <-.
      destruct p; cbn in Hp; try discriminate; now injection Hp as <-. }
    destruct (instance_of_bool rc) eqn:Hrc.
    { intros H. injection H as <-.
      destruct rc; cbn in Hrc; try discriminate; now injection Hrc as <-. }
    destruct (instance_of_bool rd) eqn:Hrd.
    { intros H. injection H as <-.
      destruct rd; cbn in Hrd; try discriminate; now injection Hrd as <-. }
    discriminate.
Qed.

(** X8: with a callable handler, at least one alias, well-typed
    options, and case-folded aliases that are distinct and free, the
    decorator returns the function as it is and registers, under every
    case-folded alias, the [Command] that wraps it; the [Command] keeps
    the aliases as they were written. *)
Theorem command_registers (f : pyval) (a : string) (al : list string)
    (perm : option Permission) (rc rd : bool) (st : state) :
  callable f = true →
  NoDup (casefold <$> a :: al) →
  (∀ k, k ∈ casefold <$> a :: al → _registered_commands st !! k = None) →
  let cmd : pyval := PCmd (mkCommand f (a :: al) perm rc rd PNone) in
  let r := command casefold (a :: al) (permission_value perm) (PBool rc)
             (PBool rd) f st in
  fst r = Return f
  ∧ (∀ k, k ∈ casefold <$> a :: al →
          _registered_commands (snd r) !! k = Some cmd)
  ∧ (∀ k, k ∉ casefold <$> a :: al →
          _registered_commands (snd r) !! k = _registered_commands st !! k).
Proof.
  intros Hc Hnd Hfree. cbv zeta. unfold command.
  rewrite Command_init_typed, Hc. cbv beta iota.
  set (cmd := PCmd (mkCommand f (a :: al) perm rc rd PNone) : pyval).
  unfold bind.
  rewrite (_register_callable casefold cmd (inr (a :: al)) st eq_refl).
  cbn [names_list].
  rewrite (_register_loop_fresh cmd _ st Hnd Hfree). cbn [negb fst snd ret].
  split; [reflexivity|]. split.
  - intros k Hk. now apply register_all_lookup_in.
  - intros k Hk. now apply register_all_lookup_other.
Qed.

(** X9: the decorator never raises [InvalidCommandException]: a
    constructed [Command] is callable, so [_register] does not return
    [False]; what it raises is a validation error or the collision
    error, and a validation error leaves the registry as it was. *)
Theorem command_never_invalid (aliases_ : list string)
    (rp rc rd f : pyval) (st : state) :
  fst (command casefold aliases_ rp rc rd f st)
  ≠ Raise InvalidCommandException
  ∧ (∀ e, Command_init f (PTuple (PStr <$> aliases_)) rp rc rd PNone
          = inl e →
          command casefold aliases_ rp rc rd f st = (Raise e, st)).
Proof.
  unfold command. split.
  - destruct (Command_init f (PTuple (PStr <$> aliases_)) rp rc rd PNone)
      as [e|cmd] eqn:Hi.
    + cbn. intros H. injection H as ->.
      unfold Command_init, is_callable in Hi.
      destruct (callable f); [|discriminate].
      rewrite aliases_validator_strs in Hi.
      destruct aliases_; [discriminate|].
      destruct rp; cbn in Hi; try discriminate;
        destruct rc; cbn in Hi; try discriminate;
        destruct rd; cbn in Hi; discriminate.
    + unfold bind.
      rewrite (_register_callable casefold (PCmd cmd) (inr aliases_) st
                 eq_refl).
      destruct (_register_loop_outcome (PCmd cmd)
                  (casefold <$> names_list (inr aliases_)) st)
        as [H|(a & _ & H)];
        destruct (_register_loop (PCmd cmd)
                    (casefold <$> names_list (inr aliases_)) st)
          as [[[]|e] st']; cbn in *; try discriminate.
      injection H as ->. discriminate.
  - intros e He. rewrite He. reflexivity.
Qed.

End CommandMore.

(** X7 at a construction with a list of aliases. *)
Lemma Command_init_error_witness :
  Command_init (PFunc 0 : Demo.value) (PList [PStr "a"]) PNone
    (PBool false) (PBool false) PNone = inl TypeError
  ∧ TypeError
    = if callable (PFunc 0 : Demo.value)
      then match (PList [PStr "a"] : Demo.value) with
           | PTuple [] => ValueError
           | _ => TypeError
           end
      else NotCallableError.
Proof.
  split; [reflexivity|].
  apply (Command_init_error (PFunc 0 : Demo.value) (PList [PStr "a"]) PNone
           (PBool false) (PBool false) PNone TypeError).
  reflexivity.
Defined.

(** X8 at the decorator [command("Ping", "p")] on an empty
    registry. *)
Lemma command_registers_witness :
  let st := Demo.state0 0 ∅ in
  let cmd : Demo.value :=
    PCmd (mkCommand (PFunc 1) ["Ping"; "p"] None false false PNone) in
  let r := command Demo.casefold ["Ping"; "p"] PNone (PBool false)
             (PBool false) (PFunc 1) st in
  fst r = Return (PFunc 1)
  ∧ _registered_commands (snd r) !! "ping" = Some cmd
  ∧ _registered_commands (snd r) !! "Ping" = None.
Proof.
  intros st cmd r.
  destruct (command_registers Demo.casefold (PFunc 1 : Demo.value)
              "Ping" ["p"] None false false st) as (Hr & Hin & Hout).
  - reflexivity.
  - apply (bool_decide_unpack _). vm_compute. exact I.
  - intros k Hk. reflexivity.
  - split; [exact Hr|]. split.
    + apply Hin. apply (bool_decide_unpack _). vm_compute. exact I.
    + rewrite Hout; [reflexivity|].
      apply (bool_decide_unpack _). vm_compute. exact I.
Defined.

(** X9 at a decorator without aliases: the [ValueError] of the
    construction comes out and nothing is registered. *)
Lemma command_never_invalid_witness :
  let st := Demo.state0 0 ∅ in
  command Demo.casefold [] PNone (PBool false) (PBool false)
    (PFunc 1 : Demo.value) st
  = (Raise ValueError, st).
Proof.
  intros st.
  apply (proj2 (command_never_invalid Demo.casefold [] PNone (PBool false)
                  (PBool false) (PFunc 1 : Demo.value) st) ValueError).
  reflexivity.
Defined.

(** ** More on the fact grammar *)

Section GrammarMore.

Lemma white_cases (c : ascii) :
  in_chars c DEFAULT_WHITE_CHARS = true →
  c = " "%char ∨ c = "010"%char ∨ c = "009"%char ∨ c = "013"%char.
Proof.
  unfold DEFAULT_WHITE_CHARS. cbn [in_chars].
  rewrite !orb_true_iff, !Ascii.eqb_eq. intuition discriminate.
Qed.

Lemma subject_not_white (c : ascii) :
  in_chars c subject_chars = true → in_chars c DEFAULT_WHITE_CHARS = false.
Proof.
  intros Hs. destruct (in_chars c DEFAULT_WHITE_CHARS) eqn:Hw; [|reflexivity].
  destruct (white_cases c Hw) as [->|[->|[->| ->]]];
    vm_compute in Hs; discriminate.
Qed.

Lemma alphanums_subject (c : ascii) :
  in_chars c alphanums = true → in_chars c subject_chars = true.
Proof.
  intros H. unfold subject_chars. rewrite in_chars_app, H. reflexivity.
Qed.

Lemma alphas_alphanums (c : ascii) :
  in_chars c alphas = true → in_chars c alphanums = true.
Proof.
  intros H. unfold alphanums. rewrite in_chars_app, H. reflexivity.
Qed.

Lemma skip_whitespace_white (ws s : string) :
  all_chars DEFAULT_WHITE_CHARS ws = true →
  skip_whitespace (ws +:+ s) = skip_whitespace s.
Proof.
  induction ws as [|c ws IH]; intros H; [reflexivity|].
  cbn [all_chars] in H. apply andb_true_iff in H as [Hc H].
  change (String c ws +:+ s) with (String c (ws +:+ s)).
  cbn [skip_whitespace]. rewrite Hc. now apply IH.
Qed.

Lemma skip_whitespace_token (c : ascii) (s : string) :
  in_chars c DEFAULT_WHITE_CHARS = false →
  skip_whitespace (String c s) = String c s.
Proof. intros H. cbn [skip_whitespace]. now rewrite H. Qed.

Lemma span_all_chars (cs s : string) :
  all_chars cs (fst (span cs s)) = true.
Proof.
  induction s as [|c s IH]; [reflexivity|].
  cbn [span]. destruct (in_chars c cs) eqn:Hc; [|reflexivity].
  destruct (span cs s) as [tok rest]. cbn [fst all_chars] in *.
  now rewrite Hc, IH.
Qed.

(** The run taken by [span] is a given token when the token is made
    of the characters and what follows does not start with one. *)
Lemma span_token (cs tok rest : string) :
  all_chars cs tok = true →
  match rest with
  | EmptyString => True
  | String d _ => in_chars d cs = false
  end →
  span cs (tok +:+ rest) = (tok, rest).
Proof.
  intros Ht Hr. induction tok as [|c tok IH].
  - change (EmptyString +:+ rest) with rest.
    destruct rest as [|d rest]; [reflexivity|]. cbn [span]. now rewrite Hr.
  - cbn [all_chars] in Ht. apply andb_true_iff in Ht as [Hc Ht].
    change (String c tok +:+ rest) with (String c (tok +:+ rest)).
    cbn [span]. rewrite Hc, (IH Ht). reflexivity.
Qed.

Lemma Word_token (cs tok rest : string) :
  (∀ c, in_chars c cs = true → in_chars c DEFAULT_WHITE_CHARS = false) →
  tok ≠ EmptyString →
  all_chars cs tok = true →
  match rest with
  | EmptyString => True
  | String d _ => in_chars d cs = false
  end →
  Word cs (tok +:+ rest) = Some (tok, rest).
Proof.
  intros Hcs Hne Ht Hr. unfold Word.
  destruct tok as [|c tok]; [contradiction|].
  change (String c tok +:+ rest) with (String c (tok +:+ rest)).
  rewrite skip_whitespace_token.
  - change (String c (tok +:+ rest)) with (String c tok +:+ rest).
    now rewrite (span_token cs (String c tok) rest Ht Hr).
  - apply Hcs. cbn [all_chars] in Ht. now apply andb_true_iff in Ht as [Hc _].
Qed.

Lemma Word_well_formed (cs s tok rest : string) :
  Word cs s = Some (tok, rest) →
  tok = fst (span cs (skip_whitespace s)) ∧ all_chars cs tok = true.
Proof.
  unfold Word. intros H.
  pose proof (span_all_chars cs (skip_whitespace s)) as Ha.
  destruct (span cs (skip_whitespace s)) as [t r].
  destruct t; [discriminate|]. injection H as <- <-. now split.
Qed.

Lemma ZeroOrMore_loop_well_formed (cs : string) (fuel : nat) (s : string)
    (l : list string) (rest : string) :
  ZeroOrMore_loop fuel (Word cs) s = (l, rest) →
  Forall (fun t => t ≠ EmptyString ∧ all_chars cs t = true) l.
Proof.
  revert s l rest. induction fuel as [|fuel IH]; intros s l rest H.
  - injection H as <- <-. constructor.
  - cbn [ZeroOrMore_loop] in H.
    destruct (Word cs s) as [[tok r]|] eqn:Hw.
    + destruct (ZeroOrMore_loop fuel (Word cs) r) as [l' r'] eqn:Hl.
      injection H as <- <-. constructor.
      * split; [now apply Word_consumes in Hw|].
        now apply Word_well_formed in Hw.
      * now apply (IH r l' r').
    + injection H as <- <-. constructor.
Qed.

(** The pattern, element by element. *)
Lemma pattern_elements (s : string) :
  pattern s
  = match Word alphanums s with
    | None => None
    | Some (n, rest1) =>
        let lr :=
          match And (Suppress (Literal "-")) (Word alphas) rest1 with
          | Some (a, r) => (Some (snd a), r)
          | None => (None, rest1)
          end in
        let sr :=
          ZeroOrMore_loop (String.length (snd lr)) (Word subject_chars)
            (snd lr) in
        Some ({| name := n; lang := fst lr; subjects := fst sr |}, snd sr)
    end.
Proof.
  unfold pattern.
  change (And (Word alphanums)
            (And (Optional (And (Suppress (Literal "-")) (Word alphas)))
               (ZeroOrMore (Word subject_chars))) s)
    with (match Word alphanums s with
          | None => None
          | Some (a, rest) =>
              match
                And (Optional (And (Suppress (Literal "-")) (Word alphas)))
                  (ZeroOrMore (Word subject_chars)) rest
              with
              | None => None
              | Some (b, rest') => Some ((a, b), rest')
              end
          end).
  destruct (Word alphanums s) as [[n rest1]|]; [|reflexivity].
  unfold And at 1, Optional, ZeroOrMore.
  destruct (And (Suppress (Literal "-")) (Word alphas) rest1)
    as [[a r]|]; cbn [fst snd];
    match goal with
    | |- context [ZeroOrMore_loop ?n ?p ?x] =>
        destruct (ZeroOrMore_loop n p x)
    end; reflexivity.
Qed.

(** X10: a line fails to parse as a fact exactly when it is blank or
    its first token does not start with an alphanumeric character;
    nothing after that first character can make the parse fail. *)
Theorem parseString_fails_iff (line : string) :
  parseString pattern line = None
  ↔ match first_token_char line with
    | Some c => in_chars c alphanums = false
    | None => True
    end.
Proof.
  rewrite <- Word_fails. unfold parseString. rewrite pattern_elements.
  destruct (Word alphanums line) as [[n rest1]|]; cbn.
  - split; discriminate.
  - tauto.
Qed.

(** X11: in a parsed fact the name is the longest run of
    alphanumerics at the head of the line, so it is not empty; a
    language is a non-empty run of letters; every subject is a
    non-empty run of subject characters. *)
Theorem parsed_tokens_well_formed (line : string) (r : ParseResults) :
  parseString pattern line = Some r →
  name r = fst (span alphanums (skip_whitespace line))
  ∧ name r ≠ EmptyString
  ∧ all_chars alphanums (name r) = true
  ∧ (∀ l, lang r = Some l →
          l ≠ EmptyString ∧ all_chars alphas l = true)
  ∧ Forall (fun s => s ≠ EmptyString ∧ all_chars subject_chars s = true)
      (subjects r).
Proof.
  unfold parseString. rewrite pattern_elements.
  destruct (Word alphanums line) as [[n rest1]|] eqn:Hn; [|discriminate].
  cbn. intros H. injection H as <-. cbn [name lang subjects].
  pose proof (Word_well_formed _ _ _ _ Hn) as [Hname Hall].
  pose proof (Word_consumes _ _ _ _ Hn) as [Hne _].
  split; [exact Hname|]. split; [exact Hne|]. split; [exact Hall|]. split.
  - intros l Hl.
    destruct (And (Suppress (Literal "-")) (Word alphas) rest1)
      as [[[u l'] r']|] eqn:Ha; cbn in Hl; [|discriminate].
    injection Hl as ->. unfold And, Suppress in Ha.
    destruct (Literal "-" rest1) as [[d r1]|]; [|discriminate].
    destruct (Word alphas r1) as [[l2 r2]|] eqn:Hw; [|discriminate].
    injection Ha as <- <-.
    split; [now apply Word_consumes in Hw | now apply Word_well_formed in Hw].
  - match goal with
    | |- context [ZeroOrMore_loop ?k ?p ?x] =>
        destruct (ZeroOrMore_loop k p x) as [subj rest3] eqn:Hz
    end.
    cbn [fst]. now apply ZeroOrMore_loop_well_formed in Hz.
Qed.

(** X13: whitespace in front of the line does not change what is
    parsed. *)
Theorem parseString_leading_whitespace (ws line : string) :
  all_chars DEFAULT_WHITE_CHARS ws = true →
  parseString pattern (ws +:+ line) = parseString pattern line.
Proof.
  intros Hws. unfold parseString. rewrite !pattern_elements.
  assert (Hw : Word alphanums (ws +:+ line) = Word alphanums line).
  { unfold Word. now rewrite skip_whitespace_white. }
  now rewrite Hw.
Qed.

End GrammarMore.

Section FactLines.

Lemma Word_after_space (cs x : string) :
  Word cs (String " " x) = Word cs x.
Proof. reflexivity. Qed.

Lemma spaced_starts_with_space (subj : list string) :
  match spaced subj with
  | EmptyString => True
  | String d _ => d = " "%char
  end.
Proof. destruct subj; cbn [spaced]; auto. Qed.

Lemma spaced_boundary (cs : string) (subj : list string) :
  in_chars " " cs = false →
  match spaced subj with
  | EmptyString => True
  | String d _ => in_chars d cs = false
  end.
Proof.
  intros H. pose proof (spaced_starts_with_space subj) as Hs.
  destruct (spaced subj); [exact I | now subst].
Qed.

(** The subjects come back from the text that [spaced] writes. *)
Lemma ZeroOrMore_loop_spaced (subj : list string) (fuel : nat) :
  Forall (fun s => s ≠ EmptyString ∧ all_chars subject_chars s = true) subj →
  (String.length (spaced subj) ≤ fuel)%nat →
  ZeroOrMore_loop fuel (Word subject_chars) (spaced subj)
  = (subj, EmptyString).
Proof.
  revert fuel. induction subj as [|s subj IH]; intros fuel Hall Hlen.
  - destruct fuel; reflexivity.
  - apply Forall_cons in Hall as [[Hne Hs] Hall].
    cbn [spaced] in *. cbn [String.length] in Hlen.
    rewrite string_length_app in Hlen.
    destruct fuel as [|fuel]; [lia|].
    cbn [ZeroOrMore_loop]. rewrite Word_after_space.
    rewrite (Word_token subject_chars s (spaced subj) subject_not_white
               Hne Hs (spaced_boundary subject_chars subj eq_refl)).
    rewrite IH; [reflexivity | exact Hall | lia].
Qed.

(** X12: a line written as name, optional [-lang], and subjects after
    single spaces parses back to exactly those parts, when the name is
    alphanumeric, the language alphabetic, the subjects made of subject
    characters, and, without a language, the first subject does not
    start with a dash (a dash there would be read as the language
    mark). *)
Theorem fact_line_parses (n : string) (l : option string)
    (subj : list string) :
  n ≠ EmptyString →
  all_chars alphanums n = true →
  (∀ l', l = Some l' → l' ≠ EmptyString ∧ all_chars alphas l' = true) →
  Forall (fun s => s ≠ EmptyString ∧ all_chars subject_chars s = true) subj →
  (l = None → ∀ s subj', subj = s :: subj' → String.prefix "-" s = false) →
  parseString pattern (fact_line n l subj)
  = Some {| name := n; lang := l; subjects := subj |}.
Proof.
  intros Hn Hna Hl Hsubj Hdash.
  unfold parseString, fact_line. rewrite pattern_elements.
  assert (Hb : match (match l with
                      | Some l' => String "-" l'
                      | None => EmptyString
                      end +:+ spaced subj) with
               | EmptyString => True
               | String d _ => in_chars d alphanums = false
               end).
  { destruct l as [l'|].
    - reflexivity.
    - apply (spaced_boundary alphanums subj). reflexivity. }
  rewrite (Word_token alphanums n _
             (fun c H => subject_not_white c (alphanums_subject c H))
             Hn Hna Hb).
  destruct l as [l'|].
  - destruct (Hl l' eq_refl) as [Hl'ne Hl'a].
    assert (Ha : And (Suppress (Literal "-")) (Word alphas)
                   (String "-" l' +:+ spaced subj)
                 = Some ((tt, l'), spaced subj)).
    { unfold And, Suppress.
      change (Literal "-" (String "-" l' +:+ spaced subj))
        with (Some ("-", l' +:+ spaced subj)).
      cbv beta iota.
      now rewrite (Word_token alphas l' (spaced subj)
                     (fun c H => subject_not_white c
                                   (alphanums_subject c (alphas_alphanums c H)))
                     Hl'ne Hl'a (spaced_boundary alphas subj eq_refl)). }
    rewrite Ha. cbn [fst snd].
    now rewrite (ZeroOrMore_loop_spaced subj _ Hsubj (le_n _)).
  - change (EmptyString +:+ spaced subj) with (spaced subj).
    assert (Ha : And (Suppress (Literal "-")) (Word alphas) (spaced subj)
                 = None).
    { unfold And, Suppress, Literal.
      destruct subj as [|s subj']; [reflexivity|].
      apply Forall_cons in Hsubj as [[Hne Hs] _].
      specialize (Hdash eq_refl s subj' eq_refl).
      destruct s as [|c s]; [contradiction|].
      cbn [spaced].
      change (skip_whitespace (String " " (String c s +:+ spaced subj')))
        with (skip_whitespace (String c (s +:+ spaced subj'))).
      rewrite skip_whitespace_token.
      2:{ apply subject_not_white. cbn [all_chars] in Hs.
          now apply andb_true_iff in Hs as [Hc _]. }
      cbn [strip_prefix].
      cbn [String.prefix] in Hdash.
      destruct (Ascii.eqb "-" c) eqn:E; [|reflexivity].
      apply Ascii.eqb_eq in E. subst c.
      destruct (ascii_dec "-" "-"); [|contradiction].
      destruct s; discriminate. }
    rewrite Ha. cbn [fst snd].
    now rewrite (ZeroOrMore_loop_spaced subj _ Hsubj (le_n _)).
Qed.

End FactLines.

(** X11 at the line ["foo_bar-x"]: the name stops at the first
    character that is not alphanumeric. *)
Lemma parsed_tokens_well_formed_witness :
  parseString pattern "foo_bar-x"
  = Some {| name := "foo"; lang := None; subjects := ["_bar-x"] |}
  ∧ name {| name := "foo"; lang := None; subjects := ["_bar-x"] |}
    = fst (span alphanums (skip_whitespace "foo_bar-x")).
Proof.
  split; [reflexivity|].
  apply (parsed_tokens_well_formed "foo_bar-x"
           {| name := "foo"; lang := None; subjects := ["_bar-x"] |}).
  reflexivity.
Defined.

(** X12 at the parts of ["Prep-fr user1 user_2"]. *)
Lemma fact_line_parses_witness :
  fact_line "Prep" (Some "fr") ["user1"; "user_2"] = "Prep-fr user1 user_2"
  ∧ parseString pattern "Prep-fr user1 user_2"
    = Some {| name := "Prep"; lang := Some "fr";
              subjects := ["user1"; "user_2"] |}.
Proof.
  split; [reflexivity|].
  apply (fact_line_parses "Prep" (Some "fr") ["user1"; "user_2"]).
  - discriminate.
  - reflexivity.
  - intros l' H. injection H as <-. split; [discriminate | reflexivity].
  - repeat constructor; discriminate.
  - discriminate.
Defined.

(** X13 at a line after a tab and two spaces. *)
Lemma parseString_leading_whitespace_witness :
  parseString pattern (String "009" "  n user1")
  = parseString pattern "n user1".
Proof.
  apply (parseString_leading_whitespace (String "009" "  ") "n user1").
  reflexivity.
Defined.

(** ** More on the fact resolver and the dispatcher *)

Section DispatchMore.
Context {env handler Permission : Type}.
Local Abbreviation pyval := (pyval handler Permission).
Local Abbreviation Command := (Command handler Permission).
Local Abbreviation state := (@state env handler Permission).
Local Abbreviation event := (@event handler Permission).

Variable casefold : string → string.
Variable get_rule : list string → list string → bool → pyval * list pyval.
Variable run_handler :
  handler → Context → list pyval → env → outcome pyval * env.
Variable handle_ratmama_announcement : handler.
Variable fact_manager_exists : string → string → env → outcome bool * env.
Variable fact_manager_find : string → string → env → outcome Fact * env.
Variable context_reply : Context → string → env → outcome pyval * env.

Local Abbreviation call := (call run_handler).
Local Abbreviation handle_fact :=
  (handle_fact casefold fact_manager_exists fact_manager_find context_reply).
Local Abbreviation select_handler := (select_handler casefold get_rule).
Local Abbreviation dispatch :=
  (dispatch casefold run_handler handle_ratmama_announcement
     fact_manager_exists fact_manager_find context_reply).
Local Abbreviation trigger :=
  (trigger casefold get_rule run_handler handle_ratmama_announcement
     fact_manager_exists fact_manager_find context_reply).

(** The globals that a step leaves alone. *)
Lemma call_frame :
  ∀ (f : pyval) (ctx : Context) (args : list pyval) (st : state),
    TRIGGER_TIME (snd (call f ctx args st)) = TRIGGER_TIME st
    ∧ TRIGGER_MISS (snd (call f ctx args st)) = TRIGGER_MISS st
    ∧ FACT_TIME (snd (call f ctx args st)) = FACT_TIME st
    ∧ _registered_commands (snd (call f ctx args st))
      = _registered_commands st.
Proof.
  fix IH 1. intros f ctx args st.
  destruct f as [| b | z | s | l | l | h | p | c];
    try (repeat split; reflexivity).
  - cbn [rat_command.call]. unfold extern. cbn [ext log].
    destruct (run_handler h ctx args (ext st)) as [r e'].
    repeat split; reflexivity.
  - destruct c as [u al rp rc rd fn].
    cbn [rat_command.call underlying]. unfold Command__call__, bind.
    cbn [aliases]. destruct al as [|a al].
    + repeat split; reflexivity.
    + cbn [first ret]. unfold timed.
      specialize (IH u ctx args st).
      destruct (call u ctx args st) as [r st']. exact IH.
Qed.

Lemma handle_fact_frame (ctx : Context) (st : state) :
  TRIGGER_TIME (snd (handle_fact ctx st)) = TRIGGER_TIME st
  ∧ _registered_commands (snd (handle_fact ctx st))
    = _registered_commands st.
Proof.
  destruct (words_eol ctx) as [|line rest] eqn:Hw.
  { rewrite handle_fact_no_line by exact Hw. split; reflexivity. }
  destruct (parseString pattern line) as [r|] eqn:Hp.
  2:{ rewrite (handle_fact_not_parsed _ _ _ _ ctx st line rest Hw Hp).
      split; reflexivity. }
  rewrite (handle_fact_parsed _ _ _ _ ctx st line rest r Hw Hp). cbv zeta.
  destruct (fact_manager_exists _ _ (ext st)) as [[[|]|e] e1];
    [| split; reflexivity | split; reflexivity].
  destruct (fact_manager_find _ _ e1) as [[f|e] e2];
    [| split; reflexivity].
  destruct (context_reply ctx _ e2) as [[v|e] e3]; split; reflexivity.
Qed.

(** X14: a line that is blank or whose first token does not start
    with an alphanumeric character is not looked up: [handle_fact]
    returns [None] without calling the store or replying. *)
Theorem handle_fact_not_a_fact (ctx : Context) (st : state)
    (line : string) (rest : list string) :
  words_eol ctx = line :: rest →
  match first_token_char line with
  | Some c => in_chars c alphanums = false
  | None => True
  end →
  handle_fact ctx st = (Return PNone, observe_FACT_TIME st)
  ∧ trace (snd (handle_fact ctx st)) = trace st
  ∧ ext (snd (handle_fact ctx st)) = ext st.
Proof.
  intros Hw Hc.
  assert (Hp : parseString pattern line = None).
  { unfold parseString. rewrite pattern_elements.
    apply Word_fails in Hc. now rewrite Hc. }
  rewrite (handle_fact_not_parsed _ _ _ _ ctx st line rest Hw Hp).
  repeat split.
Qed.

(** X15: when the store says the fact does not exist, [handle_fact]
    returns [False] after that one call: it neither fetches nor
    replies. *)
Theorem handle_fact_unknown_fact (ctx : Context) (st : state)
    (line : string) (rest : list string) (r : ParseResults) (e1 : env) :
  words_eol ctx = line :: rest →
  parseString pattern line = Some r →
  let n := casefold (name r) in
  let l := casefold (default "en" (lang r)) in
  fact_manager_exists n l (ext st) = (Return false, e1) →
  fst (handle_fact ctx st) = Return (PBool false)
  ∧ trace (snd (handle_fact ctx st)) = trace st ++ [EvExists n l]
  ∧ ext (snd (handle_fact ctx st)) = e1.
Proof.
  intros Hw Hp n l He.
  rewrite (handle_fact_parsed _ _ _ _ ctx st line rest r Hw Hp). cbv zeta.
  fold n l. rewrite He. repeat split.
Qed.

(** X16: only [psycopg2.Error] is caught: any other exception raised
    by the existence check, by the fetch or by the reply comes out of
    [handle_fact] as it is, after the observation of [FACT_TIME]. *)
Theorem handle_fact_other_errors_propagate (ctx : Context) (st : state)
    (line : string) (rest : list string) (r : ParseResults) (e : exn) :
  words_eol ctx = line :: rest →
  parseString pattern line = Some r →
  is_psycopg2_error e = false →
  let n := casefold (name r) in
  let l := casefold (default "en" (lang r)) in
  (∃ e1, fact_manager_exists n l (ext st) = (Raise e, e1))
  ∨ (∃ e1 e2,
       fact_manager_exists n l (ext st) = (Return true, e1)
       ∧ fact_manager_find n l e1 = (Raise e, e2))
  ∨ (∃ e1 f e2 e3,
       fact_manager_exists n l (ext st) = (Return true, e1)
       ∧ fact_manager_find n l e1 = (Return f, e2)
       ∧ context_reply ctx
           (join ", " (subjects r)
              +:+ (match subjects r with [] => "" | _ => ": " end)
              +:+ message f) e2
         = (Raise e, e3)) →
  fst (handle_fact ctx st) = Raise e
  ∧ FACT_TIME (snd (handle_fact ctx st)) = S (FACT_TIME st).
Proof.
  intros Hw Hp He n l Hraise.
  rewrite (handle_fact_parsed _ _ _ _ ctx st line rest r Hw Hp). cbv zeta.
  fold n l.
  destruct Hraise as [[e1 H1]|[(e1 & e2 & H1 & H2)|(e1 & f & e2 & e3 & H1 & H2 & H3)]].
  - rewrite H1, He. split; reflexivity.
  - rewrite H1, H2, He. split; reflexivity.
  - rewrite H1, H2, H3, He. split; reflexivity.
Qed.

(** X17: whatever the store and the transport do, the calls that one
    run of [handle_fact] makes are, in this order, the existence check,
    the fetch and one reply, stopping anywhere: a reply is never sent
    without the two store calls before it, and never twice. *)
Theorem handle_fact_calls_in_order (ctx : Context) (st : state) :
  ∃ evs,
    trace (snd (handle_fact ctx st)) = trace st ++ evs
    ∧ (evs = []
       ∨ ∃ n l,
           evs = [EvExists n l]
           ∨ evs = [EvExists n l; EvFind n l]
           ∨ ∃ msg, evs = [EvExists n l; EvFind n l; EvReply ctx msg]).
Proof.
  destruct (words_eol ctx) as [|line rest] eqn:Hw.
  { rewrite handle_fact_no_line by exact Hw.
    exists []. rewrite app_nil_r. auto. }
  destruct (parseString pattern line) as [r|] eqn:Hp.
  2:{ rewrite (handle_fact_not_parsed _ _ _ _ ctx st line rest Hw Hp).
      exists []. rewrite app_nil_r. auto. }
  rewrite (handle_fact_parsed _ _ _ _ ctx st line rest r Hw Hp). cbv zeta.
  destruct (fact_manager_exists _ _ (ext st)) as [[[|]|e] e1].
  2,3: eexists; split; [cbn; reflexivity | right; eauto].
  destruct (fact_manager_find _ _ e1) as [[f|e] e2].
  2: eexists; split; [cbn; rewrite <- app_assoc; reflexivity | right; eauto].
  destruct (context_reply ctx _ e2) as [[v|e] e3];
    (eexists; split;
     [cbn; rewrite <- !app_assoc; reflexivity | right; eauto 7]).
Qed.

(** The selection when the rule resolver is asked. *)
Lemma select_handler_rule (ctx : Context) (st : state) (w : string)
    (ws : list string) :
  words ctx = w :: ws →
  (prefixed ctx = true → _registered_commands st !! casefold w = None) →
  select_handler ctx st
  = (Return (get_rule (words ctx) (words_eol ctx) (negb (prefixed ctx))),
     log (EvGetRule (words ctx) (words_eol ctx) (negb (prefixed ctx))) st).
Proof.
  intros Hw Hreg. destruct (prefixed ctx) eqn:Hp.
  - now apply (select_handler_unregistered _ _ ctx st w ws Hp Hw (Hreg eq_refl)).
  - unfold rat_command.select_handler, bind. rewrite Hp.
    destruct (truthy _); [rewrite Hw|]; reflexivity.
Qed.

(** X18: when the first word is not a registered command and the
    rule resolver gives a handler, on a line that is not an
    announcement, [trigger] calls that handler with the context and
    the rule's extra arguments and gives back its outcome, returned or
    raised; the fact resolver is not run and no miss is counted. *)
Theorem trigger_rule_handler (ctx : Context) (st : state) (line : string)
    (rest : list string) (w : string) (ws : list string) (h : handler)
    (args : list pyval) :
  words_eol ctx = line :: rest →
  line ≠ "" →
  String.prefix "Incoming Client:" line = false →
  words ctx = w :: ws →
  (prefixed ctx = true → _registered_commands st !! casefold w = None) →
  get_rule (words ctx) (words_eol ctx) (negb (prefixed ctx))
  = (PFunc h, args) →
  fst (trigger ctx st) = fst (run_handler h ctx args (ext st))
  ∧ trace (snd (trigger ctx st))
    = trace st
        ++ [EvGetRule (words ctx) (words_eol ctx) (negb (prefixed ctx));
            EvCall h ctx args]
  ∧ TRIGGER_MISS (snd (trigger ctx st)) = TRIGGER_MISS st
  ∧ FACT_TIME (snd (trigger ctx st)) = FACT_TIME st.
Proof.
  intros Hw Hne Ha Hws Hreg Hrule.
  pose proof (select_handler_rule ctx st w ws Hws Hreg) as Hsel.
  rewrite Hrule in Hsel.
  rewrite (trigger_selected _ _ _ _ _ _ _ ctx st _ line rest _ Hw Hne Hsel).
  unfold timed. cbn [fst snd].
  rewrite (dispatch_handler casefold run_handler handle_ratmama_announcement
             fact_manager_exists fact_manager_find context_reply ctx _
             line rest (PFunc h) args Hw Ha eq_refl).
  cbn [rat_command.call]. unfold extern. cbn [ext log].
  destruct (run_handler h ctx args (ext st)) as [r e'].
  cbn. rewrite <- app_assoc. repeat split.
Qed.

(** The fallback of a prefixed line for which neither a command nor a
    rule was found. *)
Lemma trigger_fallback (ctx : Context) (st : state) (line : string)
    (rest : list string) (w : string) (ws : list string) :
  words_eol ctx = line :: rest →
  line ≠ "" →
  String.prefix "Incoming Client:" line = false →
  prefixed ctx = true →
  words ctx = w :: ws →
  _registered_commands st !! casefold w = None →
  truthy (fst (get_rule (words ctx) (words_eol ctx) false)) = false →
  trigger ctx st
  = let st1 := log (EvGetRule (words ctx) (words_eol ctx) false) st in
    match handle_fact ctx st1 with
    | (Return result, st2) =>
        (Return PNone,
         observe_TRIGGER_TIME
           (if truthy result then st2 else inc_TRIGGER_MISS st2))
    | (Raise e, st2) => (Raise e, observe_TRIGGER_TIME st2)
    end.
Proof.
  intros Hw Hne Ha Hp Hws Hreg Hfalsy.
  pose proof (select_handler_unregistered _ get_rule ctx st w ws Hp Hws Hreg)
    as Hsel.
  rewrite (trigger_selected _ _ _ _ _ _ _ ctx st _ line rest _ Hw Hne Hsel).
  unfold timed. cbn [fst snd].
  rewrite (dispatch_fallback _ _ _ _ _ _ ctx _ line rest _ _ Hw Ha Hfalsy).
  unfold bind. rewrite Hp. cbv zeta.
  destruct (handle_fact ctx _) as [[result|e] st2]; [|reflexivity].
  destruct (truthy result); reflexivity.
Qed.

(** X19: a prefixed line that is no command and no rule and that
    either does not parse as a fact or names a fact the store does not
    have gets no reply: [trigger] returns [None] and counts one
    miss. *)
Theorem trigger_unknown_is_miss (ctx : Context) (st : state)
    (line : string) (rest : list string) (w : string) (ws : list string) :
  words_eol ctx = line :: rest →
  line ≠ "" →
  String.prefix "Incoming Client:" line = false →
  prefixed ctx = true →
  words ctx = w :: ws →
  _registered_commands st !! casefold w = None →
  truthy (fst (get_rule (words ctx) (words_eol ctx) false)) = false →
  parseString pattern line = None
  ∨ (∃ r e1,
       parseString pattern line = Some r
       ∧ fact_manager_exists (casefold (name r))
           (casefold (default "en" (lang r))) (ext st)
         = (Return false, e1)) →
  fst (trigger ctx st) = Return PNone
  ∧ TRIGGER_MISS (snd (trigger ctx st)) = S (TRIGGER_MISS st)
  ∧ ∃ evs, trace (snd (trigger ctx st)) = trace st ++ evs
           ∧ Forall (fun ev => is_reply_event ev = false) evs.
Proof.
  intros Hw Hne Ha Hp Hws Hreg Hfalsy Hfact.
  rewrite (trigger_fallback ctx st line rest w ws Hw Hne Ha Hp Hws Hreg Hfalsy).
  cbv zeta. destruct Hfact as [Hnone|(r & e1 & Hr & He)].
  - rewrite (handle_fact_not_parsed _ _ _ _ ctx _ line rest Hw Hnone).
    cbn. repeat split. eexists. split; [reflexivity | repeat constructor].
  - pose proof (handle_fact_parsed casefold fact_manager_exists
                  fact_manager_find context_reply ctx
                  (log (EvGetRule (words ctx) (words_eol ctx) false) st)
                  line rest r Hw Hr) as Hf.
    cbv zeta in Hf. cbn [ext log] in Hf. rewrite He in Hf. rewrite Hf.
    cbn. repeat split. eexists. split.
    + rewrite <- app_assoc. reflexivity.
    + repeat constructor.
Qed.

(** X20: a prefixed line that is no command and no rule but names a
    stored fact is answered with the fact: one rule lookup, the two
    store calls and the reply, in this order; when the reply returns,
    [trigger] returns [None] and counts no miss. *)
Theorem trigger_fact_hit (ctx : Context) (st : state)
    (line : string) (rest : list string) (w : string) (ws : list string)
    (r : ParseResults) (e1 e2 e3 : env) (f : Fact) (v : pyval) :
  words_eol ctx = line :: rest →
  line ≠ "" →
  String.prefix "Incoming Client:" line = false →
  prefixed ctx = true →
  words ctx = w :: ws →
  _registered_commands st !! casefold w = None →
  truthy (fst (get_rule (words ctx) (words_eol ctx) false)) = false →
  parseString pattern line = Some r →
  let n := casefold (name r) in
  let l := casefold (default "en" (lang r)) in
  let msg :=
    join ", " (subjects r)
      +:+ (match subjects r with [] => "" | _ => ": " end)
      +:+ message f in
  fact_manager_exists n l (ext st) = (Return true, e1) →
  fact_manager_find n l e1 = (Return f, e2) →
  context_reply ctx msg e2 = (Return v, e3) →
  fst (trigger ctx st) = Return PNone
  ∧ TRIGGER_MISS (snd (trigger ctx st)) = TRIGGER_MISS st
  ∧ trace (snd (trigger ctx st))
    = trace st
        ++ [EvGetRule (words ctx) (words_eol ctx) false;
            EvExists n l; EvFind n l; EvReply ctx msg].
Proof.
  intros Hw Hne Ha Hp Hws Hreg Hfalsy Hr n l msg He Hf Hrep.
  rewrite (trigger_fallback ctx st line rest w ws Hw Hne Ha Hp Hws Hreg Hfalsy).
  cbv zeta.
  pose proof (handle_fact_parsed casefold fact_manager_exists
                fact_manager_find context_reply ctx
                (log (EvGetRule (words ctx) (words_eol ctx) false) st)
                line rest r Hw Hr) as H.
  cbv zeta in H. cbn [ext log] in H. fold n l in H.
  rewrite He, Hf in H. fold msg in H. rewrite Hrep in H. rewrite H.
  cbn. rewrite <- !app_assoc. repeat split.
Qed.

(** X21: a storage failure during the fact fallback is a miss to the
    dispatcher: when the existence check or the fetch raises
    [psycopg2.Error], [trigger] returns [None] without raising and
    counts one miss. *)
Theorem trigger_storage_error_is_miss (ctx : Context) (st : state)
    (line : string) (rest : list string) (w : string) (ws : list string)
    (r : ParseResults) (tag : nat) :
  words_eol ctx = line :: rest →
  line ≠ "" →
  String.prefix "Incoming Client:" line = false →
  prefixed ctx = true →
  words ctx = w :: ws →
  _registered_commands st !! casefold w = None →
  truthy (fst (get_rule (words ctx) (words_eol ctx) false)) = false →
  parseString pattern line = Some r →
  let n := casefold (name r) in
  let l := casefold (default "en" (lang r)) in
  (∃ e1, fact_manager_exists n l (ext st) = (Raise (Psycopg2Error tag), e1))
  ∨ (∃ e1 e2,
       fact_manager_exists n l (ext st) = (Return true, e1)
       ∧ fact_manager_find n l e1 = (Raise (Psycopg2Error tag), e2)) →
  fst (trigger ctx st) = Return PNone
  ∧ TRIGGER_MISS (snd (trigger ctx st)) = S (TRIGGER_MISS st).
Proof.
  intros Hw Hne Ha Hp Hws Hreg Hfalsy Hr n l Hraise.
  rewrite (trigger_fallback ctx st line rest w ws Hw Hne Ha Hp Hws Hreg Hfalsy).
  cbv zeta.
  pose proof (handle_fact_parsed casefold fact_manager_exists
                fact_manager_find context_reply ctx
                (log (EvGetRule (words ctx) (words_eol ctx) false) st)
                line rest r Hw Hr) as H.
  cbv zeta in H. cbn [ext log] in H. fold n l in H.
  destruct Hraise as [[e1 He]|(e1 & e2 & He & Hf)].
  - rewrite He in H. rewrite H. split; reflexivity.
  - rewrite He, Hf in H. rewrite H. split; reflexivity.
Qed.

(** X22: every call of [trigger], whatever the line and whatever the
    collaborators do outside the module, observes [TRIGGER_TIME] once,
    counts at most one miss, runs the fact resolver at most once, and
    does not write the registry; a miss is only counted on a call that
    returns. *)
Theorem trigger_metrics (ctx : Context) (st : state) :
  TRIGGER_TIME (snd (trigger ctx st)) = S (TRIGGER_TIME st)
  ∧ (TRIGGER_MISS (snd (trigger ctx st)) = TRIGGER_MISS st
     ∨ (TRIGGER_MISS (snd (trigger ctx st)) = S (TRIGGER_MISS st)
        ∧ fst (trigger ctx st) = Return PNone))
  ∧ (FACT_TIME (snd (trigger ctx st)) = FACT_TIME st
     ∨ FACT_TIME (snd (trigger ctx st)) = S (FACT_TIME st))
  ∧ _registered_commands (snd (trigger ctx st)) = _registered_commands st.
Proof.
  assert (H : ∃ r st2,
             trigger ctx st = (r, observe_TRIGGER_TIME st2)
             ∧ TRIGGER_TIME st2 = TRIGGER_TIME st
             ∧ (TRIGGER_MISS st2 = TRIGGER_MISS st
                ∨ (TRIGGER_MISS st2 = S (TRIGGER_MISS st)
                   ∧ r = Return PNone))
             ∧ (FACT_TIME st2 = FACT_TIME st
                ∨ FACT_TIME st2 = S (FACT_TIME st))
             ∧ _registered_commands st2 = _registered_commands st).
  { unfold rat_command.trigger, timed, trigger_body, bind.
    destruct (words_eol ctx) as [|line rest] eqn:Hw.
    { exists (Raise IndexError), st. repeat split; auto. }
    cbn [first ret]. destruct (String.eqb line "") eqn:E.
    { exists (Return PNone), st. repeat split; auto. }
    assert (Hframe : ∀ o st1,
               select_handler ctx st = (o, st1) →
               TRIGGER_TIME st1 = TRIGGER_TIME st
               ∧ TRIGGER_MISS st1 = TRIGGER_MISS st
               ∧ FACT_TIME st1 = FACT_TIME st
               ∧ _registered_commands st1 = _registered_commands st).
    { intros o st1. unfold rat_command.select_handler, bind.
      destruct (prefixed ctx).
      - destruct (words ctx) as [|w ws]; cbn [first ret raise].
        + intros H. injection H as _ <-. auto.
        + destruct (_registered_commands st !! casefold w);
            intros H; injection H as _ <-; auto.
      - destruct (truthy _).
        + destruct (words ctx); cbn [first ret raise];
            intros H; injection H as _ <-; auto.
        + intros H. injection H as _ <-. auto. }
    destruct (select_handler ctx st) as [[sel|e] st1] eqn:Hsel.
    2:{ exists (Raise e), st1. destruct (Hframe _ _ eq_refl) as (? & ? & ? & ?).
        repeat split; auto. }
    destruct (Hframe _ _ eq_refl) as (Ht1 & Hm1 & Hf1 & Hr1).
    rewrite <- Ht1, <- Hm1, <- Hf1, <- Hr1. clear Hsel Hframe Ht1 Hm1 Hf1 Hr1.
    destruct (String.prefix "Incoming Client:" line) eqn:Ha.
    { rewrite (dispatch_announcement _ _ _ _ _ _ ctx st1 line rest _ _ Hw Ha).
      destruct (call_frame (PFunc handle_ratmama_announcement) ctx (snd sel)
                  st1) as (Ht & Hm & Hf & Hr).
      destruct (call _ ctx (snd sel) st1) as [res st2].
      exists res, st2. cbn [snd] in *. repeat split; auto. }
    destruct (truthy (fst sel)) eqn:Htr.
    { rewrite (dispatch_handler _ _ _ _ _ _ ctx st1 line rest _ _ Hw Ha Htr).
      destruct (call_frame (fst sel) ctx (snd sel) st1) as (Ht & Hm & Hf & Hr).
      destruct (call _ ctx (snd sel) st1) as [res st2].
      exists res, st2. cbn [snd] in *. repeat split; auto. }
    rewrite (dispatch_fallback _ _ _ _ _ _ ctx st1 line rest _ _ Hw Ha Htr).
    unfold bind. destruct (prefixed ctx).
    - destruct (handle_fact_metrics casefold fact_manager_exists
                  fact_manager_find context_reply ctx st1) as (Hf & Hm & _).
      destruct (handle_fact_frame ctx st1) as (Ht & Hr).
      destruct (handle_fact ctx st1) as [[res|e] st2]; cbn [snd] in *.
      + destruct (truthy res); cbn [negb].
        * exists (Return PNone), st2. repeat split; auto.
        * exists (Return PNone), (inc_TRIGGER_MISS st2). cbn.
          rewrite Ht, Hm, Hf, Hr. repeat split; auto.
      + exists (Raise e), st2. repeat split; auto.
    - cbn. exists (Return PNone), (inc_TRIGGER_MISS st1). cbn. repeat split; auto. }
  destruct H as (r & st2 & -> & Ht & Hm & Hf & Hr). cbn.
  rewrite Ht, Hr. split; [reflexivity|]. split; [exact Hm|]. split; [exact Hf|].
  reflexivity.
Qed.

(** What a successful use of the decorator leaves behind. *)
Lemma command_result (f : pyval) (a : string) (al : list string)
    (perm : option Permission) (rc rd : bool) (st : state) :
  callable f = true →
  NoDup (casefold <$> a :: al) →
  (∀ k, k ∈ casefold <$> a :: al → _registered_commands st !! k = None) →
  command casefold (a :: al) (permission_value perm) (PBool rc) (PBool rd)
    f st
  = (Return f,
     set_registry
       (register_all (PCmd (mkCommand f (a :: al) perm rc rd PNone))
          (casefold <$> a :: al) (_registered_commands st)) st).
Proof.
  intros Hc Hnd Hfree. unfold command.
  rewrite Command_init_typed, Hc. cbv beta iota.
  set (cmd := PCmd (mkCommand f (a :: al) perm rc rd PNone) : pyval).
  unfold bind.
  rewrite (_register_callable casefold cmd (inr (a :: al)) st eq_refl).
  cbn [names_list].
  now rewrite (_register_loop_fresh cmd _ st Hnd Hfree).
Qed.

(** X23: registration and dispatch fit together: after the decorator
    has registered a function under some aliases, a prefixed line whose
    first word case-folds to one of them (and that is not an
    announcement) makes [trigger] call that function with the context
    and no extra argument and give back its outcome; the time is
    observed under the first alias as it was written. *)
Theorem command_then_trigger (h : handler) (a : string) (al : list string)
    (perm : option Permission) (rc rd : bool) (st0 : state) (ctx : Context)
    (line : string) (rest : list string) (w : string) (ws : list string) :
  NoDup (casefold <$> a :: al) →
  (∀ k, k ∈ casefold <$> a :: al → _registered_commands st0 !! k = None) →
  words_eol ctx = line :: rest →
  line ≠ "" →
  String.prefix "Incoming Client:" line = false →
  prefixed ctx = true →
  words ctx = w :: ws →
  casefold w ∈ casefold <$> a :: al →
  let st :=
    snd (command casefold (a :: al) (permission_value perm) (PBool rc)
           (PBool rd) (PFunc h) st0) in
  fst (trigger ctx st) = fst (run_handler h ctx [] (ext st0))
  ∧ trace (snd (trigger ctx st)) = trace st0 ++ [EvCall h ctx []]
  ∧ TIME_IN_COMMAND (snd (trigger ctx st)) = TIME_IN_COMMAND st0 ++ [a].
Proof.
  intros Hnd Hfree Hw Hne Ha Hp Hws Hin.
  rewrite (command_result (PFunc h) a al perm rc rd st0 eq_refl Hnd Hfree).
  cbn [snd].
  set (cmd := PCmd (mkCommand (PFunc h) (a :: al) perm rc rd PNone) : pyval).
  set (st := set_registry _ st0). cbv zeta.
  assert (Hreg : _registered_commands st !! casefold w = Some cmd).
  { subst st. cbn [_registered_commands set_registry].
    now apply register_all_lookup_in. }
  pose proof (select_handler_registered casefold get_rule ctx st w ws cmd
                Hp Hws Hreg) as Hsel.
  rewrite (trigger_selected _ _ _ _ _ _ _ ctx st _ line rest _ Hw Hne Hsel).
  unfold timed. cbn [fst snd].
  rewrite (dispatch_handler casefold run_handler handle_ratmama_announcement
             fact_manager_exists fact_manager_find context_reply ctx st
             line rest cmd [] Hw Ha eq_refl).
  subst cmd. cbn [rat_command.call underlying].
  unfold Command__call__, bind. cbn [aliases first ret]. unfold timed, extern.
  subst st. cbn [ext log set_registry].
  destruct (run_handler h ctx [] (ext st0)) as [r e']. repeat split.
Qed.

End DispatchMore.

(** X14 at the prefixed line ["!!!"]. *)
Lemma handle_fact_not_a_fact_witness :
  let st := Demo.state0 0 ∅ in
  let ctx := Demo.line_context true ["!!!"] ["!!!"] in
  Demo.handle_fact ctx st = (Return PNone, observe_FACT_TIME st)
  ∧ trace (snd (Demo.handle_fact ctx st)) = trace st
  ∧ ext (snd (Demo.handle_fact ctx st)) = ext st.
Proof.
  intros st ctx.
  apply (handle_fact_not_a_fact Demo.casefold Demo.fact_manager_exists
           Demo.fact_manager_find Demo.context_reply ctx st "!!!" []).
  - reflexivity.
  - reflexivity.
Defined.

(** X15 at the line ["doesnotexist"]. *)
Lemma handle_fact_unknown_fact_witness :
  let st := Demo.state0 0 ∅ in
  let ctx := Demo.line_context true ["doesnotexist"] ["doesnotexist"] in
  fst (Demo.handle_fact ctx st) = Return (PBool false)
  ∧ trace (snd (Demo.handle_fact ctx st)) = [EvExists "doesnotexist" "en"]
  ∧ ext (snd (Demo.handle_fact ctx st)) = 0.
Proof.
  intros st ctx.
  apply (handle_fact_unknown_fact Demo.casefold Demo.fact_manager_exists
           Demo.fact_manager_find Demo.context_reply ctx st "doesnotexist" []
           {| name := "doesnotexist"; lang := None; subjects := [] |} 0).
  - reflexivity.
  - reflexivity.
  - reflexivity.
Defined.

(** X16 with a store that fails otherwise. *)
Lemma handle_fact_other_errors_propagate_witness :
  let st := Demo.state0 0 ∅ in
  let ctx := Demo.line_context true ["n"] ["n"] in
  fst (Broken.handle_fact ctx st) = Raise (OtherException 5)
  ∧ FACT_TIME (snd (Broken.handle_fact ctx st)) = 1.
Proof.
  intros st ctx.
  apply (handle_fact_other_errors_propagate Demo.casefold
           Broken.fact_manager_exists Demo.fact_manager_find
           Demo.context_reply ctx st "n" []
           {| name := "n"; lang := None; subjects := [] |}
           (OtherException 5)).
  - reflexivity.
  - reflexivity.
  - reflexivity.
  - left. exists 0. reflexivity.
Defined.

(** X18 at the line ["rule x"] without the prefix. *)
Lemma trigger_rule_handler_witness :
  let st := Demo.state0 0 {[ "ping" := PFunc 1 ]} in
  let ctx := Demo.line_context false ["rule"; "x"] ["rule x"; "x"] in
  fst (Demo.trigger ctx st) = Return (PInt 2)
  ∧ trace (snd (Demo.trigger ctx st))
    = [EvGetRule ["rule"; "x"] ["rule x"; "x"] true;
       EvCall 2 ctx [PStr "arg"]]
  ∧ TRIGGER_MISS (snd (Demo.trigger ctx st)) = 0
  ∧ FACT_TIME (snd (Demo.trigger ctx st)) = 0.
Proof.
  intros st ctx.
  apply (trigger_rule_handler Demo.casefold Demo.get_rule Demo.run_handler
           Demo.handle_ratmama_announcement Demo.fact_manager_exists
           Demo.fact_manager_find Demo.context_reply ctx st "rule x" ["x"]
           "rule" ["x"] 2 [PStr "arg"]).
  - reflexivity.
  - discriminate.
  - reflexivity.
  - reflexivity.
  - discriminate.
  - reflexivity.
Defined.

(** X19 at the prefixed line ["doesnotexist"]. *)
Lemma trigger_unknown_is_miss_witness :
  let st := Demo.state0 0 {[ "ping" := PFunc 1 ]} in
  let ctx := Demo.line_context true ["doesnotexist"] ["doesnotexist"] in
  fst (Demo.trigger ctx st) = Return PNone
  ∧ TRIGGER_MISS (snd (Demo.trigger ctx st)) = 1
  ∧ ∃ evs, trace (snd (Demo.trigger ctx st)) = trace st ++ evs
           ∧ Forall (fun ev => is_reply_event ev = false) evs.
Proof.
  intros st ctx.
  apply (trigger_unknown_is_miss Demo.casefold Demo.get_rule
           Demo.run_handler Demo.handle_ratmama_announcement
           Demo.fact_manager_exists Demo.fact_manager_find
           Demo.context_reply ctx st "doesnotexist" [] "doesnotexist" []).
  - reflexivity.
  - discriminate.
  - reflexivity.
  - reflexivity.
  - reflexivity.
  - vm_compute. reflexivity.
  - reflexivity.
  - right.
    exists {| name := "doesnotexist"; lang := None; subjects := [] |}, 0.
    split; reflexivity.
Defined.

(** X20 at the prefixed line ["n user1"]. *)
Lemma trigger_fact_hit_witness :
  let st := Demo.state0 0 {[ "ping" := PFunc 1 ]} in
  let ctx := Demo.line_context true ["n"; "user1"] ["n user1"; "user1"] in
  fst (Demo.trigger ctx st) = Return PNone
  ∧ TRIGGER_MISS (snd (Demo.trigger ctx st)) = 0
  ∧ trace (snd (Demo.trigger ctx st))
    = [EvGetRule ["n"; "user1"] ["n user1"; "user1"] false;
       EvExists "n" "en"; EvFind "n" "en"; EvReply ctx "user1: m"].
Proof.
  intros st ctx.
  apply (trigger_fact_hit Demo.casefold Demo.get_rule Demo.run_handler
           Demo.handle_ratmama_announcement Demo.fact_manager_exists
           Demo.fact_manager_find Demo.context_reply ctx st "n user1"
           ["user1"] "n" ["user1"]
           {| name := "n"; lang := None; subjects := ["user1"] |}
           0 0 0 {| message := "m" |} PNone).
  - reflexivity.
  - discriminate.
  - reflexivity.
  - reflexivity.
  - reflexivity.
  - vm_compute. reflexivity.
  - reflexivity.
  - reflexivity.
  - reflexivity.
  - reflexivity.
  - reflexivity.
Defined.

(** X21 at the prefixed line ["n"] with a store whose existence check
    fails. *)
Lemma trigger_storage_error_is_miss_witness :
  let st := Demo.state0 1 ∅ in
  let ctx := Demo.line_context true ["n"] ["n"] in
  fst (Demo.trigger ctx st) = Return PNone
  ∧ TRIGGER_MISS (snd (Demo.trigger ctx st)) = 1.
Proof.
  intros st ctx.
  apply (trigger_storage_error_is_miss Demo.casefold Demo.get_rule
           Demo.run_handler Demo.handle_ratmama_announcement
           Demo.fact_manager_exists Demo.fact_manager_find
           Demo.context_reply ctx st "n" [] "n" []
           {| name := "n"; lang := None; subjects := [] |} 0).
  - reflexivity.
  - discriminate.
  - reflexivity.
  - reflexivity.
  - reflexivity.
  - reflexivity.
  - reflexivity.
  - reflexivity.
  - left. exists 1. reflexivity.
Defined.

(** X23 at [command("Ping", "p")] and the prefixed line ["PING"]. *)
Lemma command_then_trigger_witness :
  let st :=
    snd (command Demo.casefold ["Ping"; "p"] PNone (PBool false)
           (PBool false) (PFunc 1) (Demo.state0 0 ∅)) in
  let ctx := Demo.line_context true ["PING"] ["PING"] in
  fst (Demo.trigger ctx st) = Return (PInt 1)
  ∧ trace (snd (Demo.trigger ctx st)) = [EvCall 1 ctx []]
  ∧ TIME_IN_COMMAND (snd (Demo.trigger ctx st)) = ["Ping"].
Proof.
  intros st ctx.
  apply (command_then_trigger Demo.casefold Demo.get_rule Demo.run_handler
           Demo.handle_ratmama_announcement Demo.fact_manager_exists
           Demo.fact_manager_find Demo.context_reply 1 "Ping" ["p"] None
           false false (Demo.state0 0 ∅) ctx "PING" [] "PING" []).
  - apply (bool_decide_unpack _). vm_compute. exact I.
  - intros k Hk. reflexivity.
  - reflexivity.
  - discriminate.
  - reflexivity.
  - reflexivity.
  - reflexivity.
  - apply (bool_decide_unpack _). vm_compute. exact I.
Defined.

(** ** The administration commands *)

Section Administration.
Import administration.
Context {env value config : Type}.
Local Abbreviation world := (@world env).

Variable context_reply : string → env → outcome value * env.
Variable isfile : string → env → bool.
Variable toml_load : string → env → outcome (list (string * toml)) * env.
Variable config_file : env → string.
Variable setup : string → env → outcome (config * string) * env.

Local Abbreviation reply := (reply context_reply).
Local Abbreviation cmd_version :=
  (cmd_version context_reply isfile toml_load).
Local Abbreviation cmd_rehash :=
  (@cmd_rehash env value config context_reply config_file setup).

Lemma dict_get_outcome (kv : list (string * toml)) (key : string) :
  (∃ v, dict_get kv key = Return v ∧ (key, v) ∈ kv)
  ∨ (dict_get kv key = Raise KeyError ∧ ∀ v, (key, v) ∉ kv).
Proof.
  induction kv as [|[k v] kv IH].
  - right. split; [reflexivity|]. intros v H. inversion H.
  - cbn [dict_get]. destruct (String.eqb k key) eqn:E.
    + apply String.eqb_eq in E. subst k. left. exists v.
      split; [reflexivity | apply list_elem_of_here].
    + apply String.eqb_neq in E.
      destruct IH as [(v' & Hv & Hin)|[Hr Hnone]].
      * left. exists v'. split; [exact Hv | now apply list_elem_of_further].
      * right. split; [exact Hr|]. intros v' H.
        apply elem_of_cons in H as [H|H]; [congruence | now apply (Hnone v')].
Qed.

Lemma getitem_outcome (v : toml) (key : string) :
  (∃ x, getitem v key = Return x)
  ∨ getitem v key = Raise KeyError
  ∨ getitem v key = Raise TypeError.
Proof.
  destruct v; cbn [getitem]; auto.
  destruct (dict_get_outcome kv key) as [(x & H & _)|[H _]]; eauto.
Qed.

(** The text is the version string at [tool.poetry.version], or the
    lookup fails with [KeyError] or [TypeError]. *)
Lemma version_text_outcome (data : list (string * toml)) :
  (∃ tool poetry v,
     dict_get data "tool" = Return tool
     ∧ getitem tool "poetry" = Return poetry
     ∧ getitem poetry "version" = Return (TString v)
     ∧ version_text data = Return ("Version " +:+ v))
  ∨ version_text data = Raise KeyError
  ∨ version_text data = Raise TypeError.
Proof.
  unfold version_text.
  destruct (dict_get_outcome data "tool") as [(tool & Ht & _)|[Ht _]];
    rewrite Ht; [|auto].
  destruct (getitem_outcome tool "poetry") as [[poetry Hp]|[Hp|Hp]];
    rewrite Hp; [|auto|auto].
  destruct (getitem_outcome poetry "version") as [[v Hv]|[Hv|Hv]];
    rewrite Hv; [|auto|auto].
  destruct v; cbn [str_add]; auto.
  left. exists tool, poetry, s. rewrite Hp, Hv. auto.
Qed.

(** [cmd_version] once the file has been loaded. *)
Lemma cmd_version_loaded (w : world) (data : list (string * toml))
    (e1 : env) :
  isfile "pyproject.toml" (outside w) = true →
  toml_load "pyproject.toml" (outside w) = (Return data, e1) →
  cmd_version w
  = match version_text data with
    | Return text =>
        match reply text (mkWorld e1 (replies w)) with
        | (Raise FileNotFoundError, w') | (Raise KeyError, w') =>
            reply "version ?.?.? (dirty)" w'
        | r => r
        end
    | Raise TypeError => (Raise TypeError, mkWorld e1 (replies w))
    | Raise KeyError | Raise FileNotFoundError =>
        reply "version ?.?.? (dirty)" (mkWorld e1 (replies w))
    | Raise e => (Raise e, mkWorld e1 (replies w))
    end.
Proof.
  intros Hf Hl.
  unfold administration.cmd_version, cmd_version_try, version_text.
  rewrite Hf. unfold bind, outside_call, lift. rewrite Hl.
  destruct (dict_get data "tool") as [tool|[]]; try reflexivity.
  destruct (getitem tool "poetry") as [poetry|[]]; try reflexivity.
  destruct (getitem poetry "version") as [v|[]]; try reflexivity.
  destruct (str_add "Version " v) as [text|[]]; try reflexivity.
  destruct (reply text _) as [[x|[]] w']; reflexivity.
Qed.

(** X24: when [pyproject.toml] is there and holds a string [v] at
    [tool.poetry.version], [cmd_version] sends the one reply
    ["Version " + v] and returns what the reply returned. *)
Theorem cmd_version_found (w : world) (data : list (string * toml))
    (tool poetry : toml) (v : string) (e1 e2 : env) (x : value) :
  isfile "pyproject.toml" (outside w) = true →
  toml_load "pyproject.toml" (outside w) = (Return data, e1) →
  dict_get data "tool" = Return tool →
  getitem tool "poetry" = Return poetry →
  getitem poetry "version" = Return (TString v) →
  context_reply ("Version " +:+ v) e1 = (Return x, e2) →
  cmd_version w = (Return x, mkWorld e2 (replies w ++ ["Version " +:+ v])).
Proof.
  intros Hf Hl Ht Hp Hv Hr.
  rewrite (cmd_version_loaded w data e1 Hf Hl).
  unfold version_text. rewrite Ht, Hp, Hv. cbn [str_add].
  unfold administration.reply. cbn [outside replies]. now rewrite Hr.
Qed.

(** The fallback of [cmd_version]. *)
Lemma cmd_version_fallback (w : world) (e1 : env) :
  (isfile "pyproject.toml" (outside w) = false ∧ e1 = outside w)
  ∨ (isfile "pyproject.toml" (outside w) = true
     ∧ toml_load "pyproject.toml" (outside w)
       = (Raise FileNotFoundError, e1))
  ∨ (∃ data,
       isfile "pyproject.toml" (outside w) = true
       ∧ toml_load "pyproject.toml" (outside w) = (Return data, e1)
       ∧ version_text data = Raise KeyError) →
  cmd_version w
  = reply "version ?.?.? (dirty)" (mkWorld e1 (replies w)).
Proof.
  intros [[Hf ->]|[[Hf Hl]|(data & Hf & Hl & Hv)]].
  - unfold administration.cmd_version, cmd_version_try. rewrite Hf.
    destruct w; reflexivity.
  - unfold administration.cmd_version, cmd_version_try. rewrite Hf.
    unfold bind, outside_call. rewrite Hl. reflexivity.
  - rewrite (cmd_version_loaded w data e1 Hf Hl), Hv. reflexivity.
Qed.

(** X25: when the file is missing, or has gone when it is loaded, or
    lacks one of the keys [tool], [poetry], [version], [cmd_version]
    falls back to the default text: it sends
    ["version ?.?.? (dirty)"] and nothing else. *)
Theorem cmd_version_default (w : world) (e1 : env) :
  (isfile "pyproject.toml" (outside w) = false ∧ e1 = outside w)
  ∨ (isfile "pyproject.toml" (outside w) = true
     ∧ toml_load "pyproject.toml" (outside w)
       = (Raise FileNotFoundError, e1))
  ∨ (∃ data,
       isfile "pyproject.toml" (outside w) = true
       ∧ toml_load "pyproject.toml" (outside w) = (Return data, e1)
       ∧ version_text data = Raise KeyError) →
  cmd_version w
  = reply "version ?.?.? (dirty)" (mkWorld e1 (replies w))
  ∧ replies (snd (cmd_version w))
    = replies w ++ ["version ?.?.? (dirty)"].
Proof.
  intros H. pose proof (cmd_version_fallback w e1 H) as Heq.
  split; [exact Heq|]. rewrite Heq. unfold administration.reply.
  cbn [outside replies]. destruct (context_reply _ e1). reflexivity.
Qed.

(** X26: when replies go out and loading the file returns or fails
    with [FileNotFoundError], [cmd_version] either sends exactly one
    reply, the version or the default text, and returns, or raises
    [TypeError] without replying (a [tool] or [poetry] entry that is
    no table, a version that is no string). *)
Theorem cmd_version_one_reply (w : world) :
  (∀ msg e, ∃ x e', context_reply msg e = (Return x, e')) →
  (isfile "pyproject.toml" (outside w) = true →
   ∃ e1, toml_load "pyproject.toml" (outside w)
         = (Raise FileNotFoundError, e1)
         ∨ ∃ data, toml_load "pyproject.toml" (outside w)
                   = (Return data, e1)) →
  (∃ x msg,
     fst (cmd_version w) = Return x
     ∧ replies (snd (cmd_version w)) = replies w ++ [msg]
     ∧ (msg = "version ?.?.? (dirty)" ∨ ∃ v, msg = "Version " +:+ v))
  ∨ (fst (cmd_version w) = Raise TypeError
     ∧ replies (snd (cmd_version w)) = replies w).
Proof.
  intros Hreply Hload.
  assert (Hdef : ∀ e1, ∃ x,
             reply "version ?.?.? (dirty)" (mkWorld e1 (replies w))
             = (Return x,
                mkWorld (snd (context_reply "version ?.?.? (dirty)" e1))
                  (replies w ++ ["version ?.?.? (dirty)"]))).
  { intros e1. unfold administration.reply. cbn [outside replies].
    destruct (Hreply "version ?.?.? (dirty)" e1) as (x & e' & Hx).
    rewrite Hx. eauto. }
  destruct (isfile "pyproject.toml" (outside w)) eqn:Hf.
  - destruct (Hload eq_refl) as [e1 [Hl|[data Hl]]].
    + rewrite (cmd_version_fallback w e1); [|auto]. destruct (Hdef e1) as [x ->]. left.
      exists x, "version ?.?.? (dirty)". cbn. auto.
    + rewrite (cmd_version_loaded w data e1 Hf Hl).
      destruct (version_text_outcome data)
        as [(tool & poetry & v & _ & _ & _ & ->)|[-> | ->]].
      * destruct (Hreply ("Version " +:+ v) e1) as (x & e' & Hx).
        assert (Hrep : reply ("Version " +:+ v) (mkWorld e1 (replies w))
                       = (Return x,
                          mkWorld e' (replies w ++ ["Version " +:+ v]))).
        { unfold administration.reply. cbn [outside replies].
          now rewrite Hx. }
        rewrite Hrep. left. exists x, ("Version " +:+ v). cbn. eauto.
      * destruct (Hdef e1) as [x ->]. left.
        exists x, "version ?.?.? (dirty)". cbn. auto.
      * right. split; reflexivity.
  - rewrite (cmd_version_fallback w (outside w)); [|auto]. destruct (Hdef (outside w)) as [x ->]. left.
    exists x, "version ?.?.? (dirty)". cbn. auto.
Qed.

Lemma str_take_prefix (n : nat) (s : string) :
  (String.length (str_take n s) ≤ n)%nat
  ∧ ∃ rest, s = str_take n s +:+ rest.
Proof.
  revert s. induction n as [|n IH]; intros s.
  - split; [cbn; lia|]. exists s. reflexivity.
  - destruct s as [|c s]; cbn [str_take].
    + split; [cbn; lia|]. exists EmptyString. reflexivity.
    + destruct (IH s) as [Hlen [rest Hrest]]. split; [cbn; lia|].
      exists rest.
      change (String c (str_take n s) +:+ rest)
        with (String c (str_take n s +:+ rest)).
      now rewrite <- Hrest.
Qed.

(** X27: when [setup] returns, [cmd_rehash] sends two replies: the
    notice that the configuration is being reloaded, before [setup]
    runs, and the success text with the first eight characters of the
    new hash, or the whole hash when it is shorter. *)
Theorem cmd_rehash_success (w : world) (x y : value) (cfg : config)
    (h : string) (e1 e2 e3 : env) :
  context_reply "reloading configuration..." (outside w) = (Return x, e1) →
  setup (config_file (outside w)) e1 = (Return (cfg, h), e2) →
  context_reply
    ("rehashing completed successfully. (" +:+ str_take 8 h +:+ ") ") e2
  = (Return y, e3) →
  cmd_rehash w
  = (Return tt,
     mkWorld e3
       (replies w
          ++ ["reloading configuration...";
              "rehashing completed successfully. ("
                +:+ str_take 8 h +:+ ") "]))
  ∧ (String.length (str_take 8 h) ≤ 8)%nat
  ∧ (∃ rest, h = str_take 8 h +:+ rest).
Proof.
  intros H1 Hs H2. split; [|apply str_take_prefix].
  unfold administration.cmd_rehash, bind, administration.reply, outside_call.
  rewrite H1. cbn [outside replies]. rewrite Hs. cbn [outside replies].
  rewrite H2. cbn. now rewrite <- app_assoc.
Qed.

(** X28: when [setup] raises [KeyError] or [ValueError], [cmd_rehash]
    catches it and sends the failure text as its second reply; any
    other exception of [setup] comes out of [cmd_rehash] after the
    first reply only. *)
Theorem cmd_rehash_setup_fails (w : world) (x : value) (e : exn)
    (e1 e2 : env) :
  context_reply "reloading configuration..." (outside w) = (Return x, e1) →
  setup (config_file (outside w)) e1 = (Raise e, e2) →
  (e = KeyError ∨ e = ValueError →
   ∀ y e3,
     context_reply
       "unable to rehash configuration file see logfile for details." e2
     = (Return y, e3) →
     cmd_rehash w
     = (Return tt,
        mkWorld e3
          (replies w
             ++ ["reloading configuration...";
                 "unable to rehash configuration file see logfile for details."])))
  ∧ (e ≠ KeyError → e ≠ ValueError →
     cmd_rehash w
     = (Raise e, mkWorld e2 (replies w ++ ["reloading configuration..."]))).
Proof.
  intros H1 Hs. split.
  - intros He y e3 H2.
    unfold administration.cmd_rehash, bind, administration.reply, outside_call.
    rewrite H1. cbn [outside replies]. rewrite Hs.
    destruct He as [-> | ->]; cbn [outside replies]; rewrite H2; cbn;
      now rewrite <- app_assoc.
  - intros Hk Hv.
    unfold administration.cmd_rehash, bind, administration.reply, outside_call.
    rewrite H1. cbn [outside replies]. rewrite Hs.
    destruct e; try contradiction; reflexivity.
Qed.

End Administration.

(** X24 at a project file with version ["3.0.0"]. *)
Lemma cmd_version_found_witness :
  let files :=
    {| administration.Demo.pyproject :=
         Some (administration.Demo.poetry_project
                 (administration.TString "3.0.0"));
       administration.Demo.setup_result :=
         administration.Return (tt, "") |} in
  administration.cmd_version administration.Demo.context_reply
    administration.Demo.isfile administration.Demo.toml_load
    (administration.mkWorld files [])
  = (administration.Return tt,
     administration.mkWorld files ["Version 3.0.0"]).
Proof.
  intros files.
  apply (cmd_version_found administration.Demo.context_reply
           administration.Demo.isfile administration.Demo.toml_load
           (administration.mkWorld files [])
           (administration.Demo.poetry_project
              (administration.TString "3.0.0"))
           (administration.TTable
              [("poetry",
                administration.TTable
                  [("name", administration.TString "mecha");
                   ("version", administration.TString "3.0.0")])])
           (administration.TTable
              [("name", administration.TString "mecha");
               ("version", administration.TString "3.0.0")])
           "3.0.0" files files tt); reflexivity.
Defined.

(** X25 without a project file. *)
Lemma cmd_version_default_witness :
  let files :=
    {| administration.Demo.pyproject := None;
       administration.Demo.setup_result :=
         administration.Return (tt, "") |} in
  administration.replies
    (snd (administration.cmd_version administration.Demo.context_reply
            administration.Demo.isfile administration.Demo.toml_load
            (administration.mkWorld files [])))
  = ["version ?.?.? (dirty)"].
Proof.
  intros files.
  apply (proj2 (cmd_version_default administration.Demo.context_reply
                  administration.Demo.isfile administration.Demo.toml_load
                  (administration.mkWorld files []) files
                  (or_introl (conj eq_refl eq_refl)))).
Defined.

(** X26 at a project file whose version is a number: no reply. *)
Lemma cmd_version_one_reply_witness :
  let files :=
    {| administration.Demo.pyproject :=
         Some (administration.Demo.poetry_project
                 (administration.TInteger 3));
       administration.Demo.setup_result :=
         administration.Return (tt, "") |} in
  let r :=
    administration.cmd_version administration.Demo.context_reply
      administration.Demo.isfile administration.Demo.toml_load
      (administration.mkWorld files []) in
  (∃ x msg,
     fst r = administration.Return x
     ∧ administration.replies (snd r) = [] ++ [msg]
     ∧ (msg = "version ?.?.? (dirty)" ∨ ∃ v, msg = "Version " +:+ v))
  ∨ (fst r = administration.Raise administration.TypeError
     ∧ administration.replies (snd r) = []).
Proof.
  intros files r.
  apply (cmd_version_one_reply administration.Demo.context_reply
           administration.Demo.isfile administration.Demo.toml_load
           (administration.mkWorld files [])).
  - intros msg e. exists tt, e. reflexivity.
  - intros _. exists files. right. eexists. reflexivity.
Defined.

(** X27 with a hash of sixteen characters. *)
Lemma cmd_rehash_success_witness :
  let files :=
    {| administration.Demo.pyproject := None;
       administration.Demo.setup_result :=
         administration.Return (tt, "0123456789abcdef") |} in
  administration.cmd_rehash administration.Demo.context_reply
    administration.Demo.config_file administration.Demo.setup
    (administration.mkWorld files [])
  = (administration.Return tt,
     administration.mkWorld files
       ["reloading configuration...";
        "rehashing completed successfully. (01234567) "]).
Proof.
  intros files.
  apply (proj1 (cmd_rehash_success administration.Demo.context_reply
                  administration.Demo.config_file administration.Demo.setup
                  (administration.mkWorld files []) tt tt tt
                  "0123456789abcdef" files files files
                  eq_refl eq_refl eq_refl)).
Defined.

(** X28 with a [setup] that raises [KeyError]. *)
Lemma cmd_rehash_setup_fails_witness :
  let files :=
    {| administration.Demo.pyproject := None;
       administration.Demo.setup_result :=
         administration.Raise administration.KeyError |} in
  administration.cmd_rehash administration.Demo.context_reply
    administration.Demo.config_file administration.Demo.setup
    (administration.mkWorld files [])
  = (administration.Return tt,
     administration.mkWorld files
       ["reloading configuration...";
        "unable to rehash configuration file see logfile for details."]).
Proof.
  intros files.
  apply (proj1 (cmd_rehash_setup_fails administration.Demo.context_reply
                  administration.Demo.config_file administration.Demo.setup
                  (administration.mkWorld files []) tt
                  administration.KeyError files files eq_refl eq_refl)
           (or_introl eq_refl) tt files eq_refl).
Defined.
